(** * A model of the in-memory book service

    The service is one asynchronous request handler over two module-level
    variables, [books] and [nextId].  The handler is embedded as a function
    in a state-and-exception monad over the pair of the store and the
    response object; the built-ins of the JavaScript runtime that the code
    calls ([JSON.parse], [JSON.stringify], number printing) are fields of a
    [Runtime] record, so that every statement holds for any of them. *)

From Stdlib Require Import ZArith List String Ascii Bool Lia.
Import ListNotations.
Local Open Scope string_scope.
Local Open Scope Z_scope.

(** ** Strings

    JavaScript strings are modelled as [string]; a character is one code
    unit in the Latin-1 range. *)

Definition code (c : ascii) : Z := Z.of_nat (nat_of_ascii c).

Definition is_digit (c : ascii) : bool := (48 <=? code c) && (code c <=? 57).

(** [\s] of a regular expression, [String.prototype.trim] and the blanks
    skipped by [parseInt]: TAB, LF, VT, FF, CR, SP and NBSP. *)
Definition is_space (c : ascii) : bool :=
  ((9 <=? code c) && (code c <=? 13)) || (code c =? 32) || (code c =? 160).

(** [.] of a regular expression without the [s] flag. *)
Definition is_line_terminator (c : ascii) : bool :=
  (code c =? 10) || (code c =? 13).

Definition lower_char (c : ascii) : ascii :=
  let n := code c in
  if ((65 <=? n) && (n <=? 90))
     || ((192 <=? n) && (n <=? 222) && negb (n =? 215))
  then ascii_of_nat (Z.to_nat (n + 32)) else c.

Fixpoint toLowerCase (s : string) : string :=
  match s with
  | EmptyString => EmptyString
  | String c s' => String (lower_char c) (toLowerCase s')
  end.

(** [s.startsWith(p)] *)
Definition startsWith (s p : string) : bool := prefix p s.

(** [s.includes(sub)] *)
Fixpoint includes (s sub : string) : bool :=
  prefix sub s ||
  match s with
  | EmptyString => false
  | String _ s' => includes s' sub
  end.

Fixpoint drop_spaces (s : string) : string :=
  match s with
  | String c s' => if is_space c then drop_spaces s' else s
  | EmptyString => EmptyString
  end.

Fixpoint string_rev_onto (s acc : string) : string :=
  match s with
  | EmptyString => acc
  | String c s' => string_rev_onto s' (String c acc)
  end.

Definition string_rev (s : string) : string := string_rev_onto s EmptyString.

(** [s.trim()] *)
Definition trim (s : string) : string :=
  string_rev (drop_spaces (string_rev (drop_spaces s))).

(** [s.split(sep)] for a one-character separator. *)
Fixpoint split_on (sep : ascii) (s : string) : list string :=
  match s with
  | EmptyString => [EmptyString]
  | String c s' =>
      if Ascii.eqb c sep then EmptyString :: split_on sep s'
      else match split_on sep s' with
           | p :: ps => String c p :: ps
           | [] => [String c EmptyString]
           end
  end.

Fixpoint all_chars (p : ascii -> bool) (s : string) : bool :=
  match s with
  | EmptyString => true
  | String c s' => p c && all_chars p s'
  end.

(** The longest prefix of digits, and what follows it. *)
Fixpoint span_digits (s : string) : string * string :=
  match s with
  | String c s' =>
      if is_digit c then let (d, r) := span_digits s' in (String c d, r)
      else (EmptyString, s)
  | EmptyString => (EmptyString, EmptyString)
  end.

Fixpoint digits_value_from (acc : Z) (s : string) : Z :=
  match s with
  | EmptyString => acc
  | String c s' => digits_value_from (10 * acc + (code c - 48)) s'
  end.

(** The mathematical value of a string of decimal digits. *)
Definition digits_value (s : string) : Z := digits_value_from 0 s.

(** Decimal printing of an integer, as [String(n)] prints an integer below
    1e21. *)
Fixpoint decimal_digits (fuel : nat) (n : Z) (acc : string) : string :=
  match fuel with
  | O => acc
  | S fuel' =>
      let acc' := String (ascii_of_nat (Z.to_nat (48 + n mod 10))) acc in
      if n <? 10 then acc' else decimal_digits fuel' (n / 10) acc'
  end.

Definition decimal (n : Z) : string :=
  if n <? 0 then String "-"%char (decimal_digits (S (Z.to_nat (Z.log2 (- n)))) (- n) EmptyString)
  else decimal_digits (S (Z.to_nat (Z.log2 n))) n EmptyString.

(** ** Numbers

    A JavaScript number is an IEEE-754 double.  The numbers this program
    computes with are integers, NaN and the infinities; the two zeros are
    one [Fin 0], which no operation used here tells apart. *)

Inductive JSNumber : Type :=
| NaN
| Inf (negative : bool)
| Fin (z : Z).

(** The double nearest to an integer, ties to even: integers below 2^53 in
    magnitude are doubles, larger ones keep 53 significant bits, and from
    2^1024 - 2^970 on the result is an infinity. *)
Definition round_double (z : Z) : JSNumber :=
  let a := Z.abs z in
  if a <? 2 ^ 53 then Fin z
  else
    let k := Z.log2 a - 52 in
    let q := Z.shiftr a k in
    let r := a - Z.shiftl q k in
    let half := 2 ^ (k - 1) in
    let m := if (half <? r) || ((half =? r) && Z.odd q) then q + 1 else q in
    let v := Z.shiftl m k in
    if 2 ^ 1024 <=? v then Inf (z <? 0) else Fin (Z.sgn z * v).

Definition js_neg (a : JSNumber) : JSNumber :=
  match a with
  | NaN => NaN
  | Inf s => Inf (negb s)
  | Fin z => Fin (- z)
  end.

Definition js_add (a b : JSNumber) : JSNumber :=
  match a, b with
  | NaN, _ | _, NaN => NaN
  | Inf s, Inf t => if Bool.eqb s t then Inf s else NaN
  | Inf s, Fin _ | Fin _, Inf s => Inf s
  | Fin x, Fin y => round_double (x + y)
  end.

Definition js_sub (a b : JSNumber) : JSNumber := js_add a (js_neg b).

Definition js_mul (a b : JSNumber) : JSNumber :=
  match a, b with
  | NaN, _ | _, NaN => NaN
  | Inf s, Inf t => Inf (xorb s t)
  | Inf s, Fin y | Fin y, Inf s =>
      if y =? 0 then NaN else Inf (xorb s (y <? 0))
  | Fin x, Fin y => round_double (x * y)
  end.

(** [parseInt(s, 10)]: blanks are skipped, a sign is read, and the longest
    prefix of digits is the value; without a digit the result is NaN. *)
Definition parseInt (s : string) : JSNumber :=
  let s1 := drop_spaces s in
  let (neg, s2) :=
    match s1 with
    | String "-"%char r => (true, r)
    | String "+"%char r => (false, r)
    | _ => (false, s1)
    end in
  let (d, _) := span_digits s2 in
  match d with
  | EmptyString => NaN
  | _ => round_double (if neg then - digits_value d else digits_value d)
  end.

(** [Number(s)] on a non-empty string of digits, which is all the route
    pattern lets through. *)
Definition Number_of_digits (s : string) : JSNumber :=
  round_double (digits_value s).

(** ** Arrays *)

(** The relative index of [Array.prototype.slice]: NaN counts as 0, a
    negative index counts from the end, and the result is clamped to
    [0 .. len]. *)
Definition relative_index (len : Z) (n : JSNumber) : Z :=
  match n with
  | NaN => 0
  | Inf true => 0
  | Inf false => len
  | Fin z => if z <? 0 then Z.max (len + z) 0 else Z.min z len
  end.

(** [l.slice(s, e)] *)
Definition slice {A : Type} (l : list A) (s e : JSNumber) : list A :=
  let len := Z.of_nat (List.length l) in
  let k := relative_index len s in
  let final := relative_index len e in
  firstn (Z.to_nat (final - k)) (skipn (Z.to_nat k) l).

(** ** Values read from a request body

    What [JSON.parse] returns: null, a boolean, a number, a string, an array
    or an object (its own properties, in insertion order, without duplicate
    keys).  The type of numbers is the runtime's. *)

#[warnings="-register-all"]
Inductive JSValue (num : Type) : Type :=
| JNull
| JBool (b : bool)
| JNum (n : num)
| JStr (s : string)
| JArr (items : list (JSValue num))
| JObj (props : list (string * JSValue num)).

Arguments JNull {num}.
Arguments JBool {num} b.
Arguments JNum {num} n.
Arguments JStr {num} s.
Arguments JArr {num} items.
Arguments JObj {num} props.

Fixpoint assoc {A : Type} (k : string) (l : list (string * A)) : option A :=
  match l with
  | [] => None
  | (k', v) :: l' => if String.eqb k k' then Some v else assoc k l'
  end.

(** [o[k] = v] on an object used as a map. *)
Fixpoint assoc_set {A : Type} (k : string) (v : A) (l : list (string * A))
  : list (string * A) :=
  match l with
  | [] => [(k, v)]
  | (k', v') :: l' =>
      if String.eqb k k' then (k, v) :: l' else (k', v') :: assoc_set k v l'
  end.

(** What a [throw] carries. *)
Inductive Exn : Type :=
| StreamFailure          (* the request stream emitted 'error' *)
| TypeError              (* Cannot convert object to primitive value *)
| ERR_HTTP_HEADERS_SENT. (* Cannot set headers after they are sent *)

Inductive Completion (A : Type) : Type :=
| Normal (a : A)
| Throw (e : Exn).

Arguments Normal {A} a.
Arguments Throw {A} e.

(** ** The store *)

Record Book : Type := mkBook {
  id : JSNumber;
  title : string;
  author : string
}.

(** The two module-level variables.  [nextId] starts at 4 and is only ever
    incremented by one, once per created book; doubles are exact on such
    integers up to 2^53, and the counter is modelled by its integer value. *)
Record Store : Type := mkStore {
  books : list Book;
  nextId : Z
}.

Definition seed : Store :=
  {| books := [ mkBook (Fin 1) "Eloquent JS" "Marijn Haverbeke";
                mkBook (Fin 2) "You Don't Know JS" "Kyle Simpson";
                mkBook (Fin 3) "Clean Code" "Robert C. Martin" ];
     nextId := 4 |}.

(** [a === b] on numbers. *)
Definition strict_eq (a b : JSNumber) : bool :=
  match a, b with
  | Fin x, Fin y => x =? y
  | Inf s, Inf t => Bool.eqb s t
  | _, _ => false
  end.

(** [books.find(b => b.id === id)] *)
Definition find_book (i : JSNumber) (l : list Book) : option Book :=
  find (fun b => strict_eq (id b) i) l.

(** [books.findIndex(b => b.id === id)], [None] for -1. *)
Fixpoint findIndex (i : JSNumber) (l : list Book) : option nat :=
  match l with
  | [] => None
  | b :: l' =>
      if strict_eq (id b) i then Some O
      else match findIndex i l' with
           | Some n => Some (S n)
           | None => None
           end
  end.

(** [l[idx] = b] for an index inside the array. *)
Fixpoint set_nth (idx : nat) (b : Book) (l : list Book) : list Book :=
  match l, idx with
  | [], _ => []
  | _ :: l', O => b :: l'
  | x :: l', S n => x :: set_nth n b l'
  end.

(** [l.splice(idx, 1)]: what is left in the array. *)
Fixpoint remove_nth (idx : nat) (l : list Book) : list Book :=
  match l, idx with
  | [], _ => []
  | _ :: l', O => l'
  | x :: l', S n => x :: remove_nth n l'
  end.

(** The first book with the given id, updated in place: [books.find]
    returns a reference to the element, and PATCH assigns to its fields. *)
Fixpoint update_first (i : JSNumber) (f : Book -> Book) (l : list Book)
  : list Book :=
  match l with
  | [] => []
  | b :: l' =>
      if strict_eq (id b) i then f b :: l' else b :: update_first i f l'
  end.

(** [let list = books.slice();
     if (author) list = list.filter(b =>
       b.author.toLowerCase().includes(author.toLowerCase()))] *)
Definition filter_by_author (author_q : option string) (all : list Book)
  : list Book :=
  match author_q with
  | Some a =>
      if String.eqb a "" then all
      else filter (fun b => includes (toLowerCase (author b)) (toLowerCase a)) all
  | None => all
  end.

(** ** Responses *)

(** The argument of [sendJSON]; the text on the wire is its
    [JSON.stringify].  [PNoData] is an object whose [data] is undefined. *)
Inductive Payload : Type :=
| PList (page limit : JSNumber) (total : Z) (data : list Book)
| PData (b : Book)
| PNoData
| PDataCookies (b : Book) (cookies : list (string * string))
| PError (msg : string).

(** What the client receives: the status line, the headers and the body
    as they are when [res.end] flushes them. *)
Record Wire : Type := mkWire {
  w_status : Z;
  w_headers : list (string * string);
  w_body : option Payload
}.

(** The response object [res] of Node's [http] module. *)
Record ServerResponse : Type := mkRes {
  statusCode : Z;
  headers : list (string * string);
  sent : option Wire
}.

Definition fresh_res : ServerResponse :=
  {| statusCode := 200; headers := []; sent := None |}.

(** ** The runtime *)

Record Runtime : Type := mkRuntime {
  num : Type;
  (** [!!n]: false at 0 and -0 *)
  num_truthy : num -> bool;
  (** [String(n)] *)
  num_toString : num -> string;
  (** [JSON.parse], [None] when it throws a SyntaxError *)
  JSON_parse : string -> option (JSValue num);
  JSON_stringify : Payload -> string
}.

(** ** The handler's monad

    A computation reads and writes the store and the response object and
    either completes normally or throws. *)

Definition M (A : Type) : Type :=
  Store * ServerResponse -> Completion A * (Store * ServerResponse).

Definition ret {A : Type} (a : A) : M A := fun s => (Normal a, s).

Definition bind {A B : Type} (c : M A) (k : A -> M B) : M B :=
  fun s =>
    match c s with
    | (Normal a, s') => k a s'
    | (Throw e, s') => (Throw e, s')
    end.

Definition throw {A : Type} (e : Exn) : M A := fun s => (Throw e, s).

Definition lift {A : Type} (c : Completion A) : M A := fun s => (c, s).

Declare Scope handler_scope.
Delimit Scope handler_scope with handler.
Notation "x <- c ;; k" := (bind c (fun x => k))
  (at level 61, c at next level, right associativity) : handler_scope.
Notation "c ;; k" := (bind c (fun _ => k))
  (at level 61, right associativity) : handler_scope.
Local Open Scope handler_scope.

(** [try { body } catch (err) { handler } finally { fin }]: the finalizer
    runs on every exit, and a throw of the finalizer replaces the
    completion it finds. *)
Definition try_catch_finally {A : Type}
  (body : M A) (handler : Exn -> M A) (fin : M unit) : M A :=
  fun s =>
    let '(r1, s1) := body s in
    let '(r2, s2) :=
      match r1 with
      | Normal a => (Normal a, s1)
      | Throw e => handler e s1
      end in
    match fin s2 with
    | (Normal _, s3) => (r2, s3)
    | (Throw e, s3) => (Throw e, s3)
    end.

Definition get_books : M (list Book) := fun s => (Normal (books (fst s)), s).

Definition set_books (l : list Book) : M unit :=
  fun s => (Normal tt, (mkStore l (nextId (fst s)), snd s)).

(** [nextId++] *)
Definition post_increment_nextId : M Z :=
  fun s =>
    (Normal (nextId (fst s)),
     (mkStore (books (fst s)) (nextId (fst s) + 1), snd s)).

(** [res.setHeader(name, value)]: once the headers are flushed Node throws
    ERR_HTTP_HEADERS_SENT. *)
Definition setHeader (name value : string) : M unit :=
  fun s =>
    let res := snd s in
    match sent res with
    | Some _ => (Throw ERR_HTTP_HEADERS_SENT, s)
    | None =>
        (Normal tt,
         (fst s, mkRes (statusCode res) (assoc_set name value (headers res)) None))
    end.

(** [res.statusCode = status] *)
Definition set_statusCode (status : Z) : M unit :=
  fun s =>
    let res := snd s in
    (Normal tt, (fst s, mkRes status (headers res) (sent res))).

(** [res.end(body)]: the status and the headers set so far are flushed
    with the body; on a finished response nothing more is written. *)
Definition end_ (body : option Payload) : M unit :=
  fun s =>
    let res := snd s in
    match sent res with
    | Some _ => (Normal tt, s)
    | None =>
        (Normal tt,
         (fst s,
          mkRes (statusCode res) (headers res)
                (Some (mkWire (statusCode res) (headers res) body))))
    end.

(** [Buffer.byteLength(s)]: the length of the UTF-8 encoding. *)
Fixpoint byteLength (s : string) : Z :=
  match s with
  | EmptyString => 0
  | String c s' => (if code c <? 128 then 1 else 2) + byteLength s'
  end.

(** ** Requests *)

(** How the request stream ends for [readBody]. *)
Inductive BodyStream : Type :=
| StreamEnd (raw : string)
| StreamError.

(** A request as the handler reads it, once [new URL(req.url, ...)] has
    split the target into [pathname] and [searchParams]; a target that
    [new URL] rejects is not a request of the model. *)
Record Request : Type := mkRequest {
  method : string;
  pathname : string;
  searchParams : list (string * string);
  authorization : option string;
  cookie : option string;
  body : BodyStream
}.

(** What the environment supplies during one call of the handler: the two
    readings of [Date.now()] and the hex of [crypto.randomBytes(12)]. *)
Record Env : Type := mkEnv {
  now_start : Z;
  now_end : Z;
  sessionId : string
}.

(** [x || d] for a string or null [x]. *)
Definition or_default (x : option string) (d : string) : string :=
  match x with
  | None => d
  | Some s => if String.eqb s "" then d else s
  end.

(** [searchParams.get(k)] *)
Definition searchParams_get (req : Request) (k : string) : option string :=
  assoc k (searchParams req).

(** One step of the [forEach] of [parseCookies].  The object [out] is kept
    as the list of its own properties; assigning a string to [__proto__]
    goes to the setter of [Object.prototype], which ignores it. *)
Definition parse_cookie_part (out : list (string * string)) (part : string)
  : list (string * string) :=
  match split_on "="%char part with
  | k :: rest =>
      if String.eqb k "" then out
      else if String.eqb (trim k) "__proto__" then out
      else assoc_set (trim k)
                     (trim (or_default (hd_error rest) "")) out
  | [] => out
  end.

Definition parseCookies (cookieHeader : option string) : list (string * string) :=
  match cookieHeader with
  | None => []
  | Some h =>
      if String.eqb h "" then []
      else fold_left parse_cookie_part (split_on ";"%char h) []
  end.

Fixpoint strip_prefix (p s : string) : option string :=
  match p, s with
  | EmptyString, _ => Some s
  | String a p', String b s' =>
      if Ascii.eqb a b then strip_prefix p' s' else None
  | String _ _, EmptyString => None
  end.

(** [pathname.match(/^\/books(?:\/(\d+))?$/)]: [None] for no match,
    [Some None] for a match without the group, [Some (Some ds)] with it. *)
Definition bookMatch (p : string) : option (option string) :=
  match strip_prefix "/books" p with
  | None => None
  | Some EmptyString => Some None
  | Some (String c ds) =>
      if Ascii.eqb c "/"%char && negb (String.eqb ds "") && all_chars is_digit ds
      then Some (Some ds) else None
  end.

(** [bookMatch && bookMatch[1]] *)
Definition bookMatch_id (m : option (option string)) : option string :=
  match m with
  | Some (Some ds) => if String.eqb ds "" then None else Some ds
  | _ => None
  end.

(** The prefix [p], given in lower case, matched without regard to case. *)
Fixpoint strip_prefix_ci (p s : string) : option string :=
  match p, s with
  | EmptyString, _ => Some s
  | String a p', String b s' =>
      if Ascii.eqb a (lower_char b) && (code b <? 128)
      then strip_prefix_ci p' s' else None
  | String _ _, EmptyString => None
  end.

(** [\s+(.+)$] after one blank has been read: the blanks are greedy, and
    the group takes the rest when it is not empty and holds no line
    terminator. *)
Fixpoint blanks_then_group (s : string) : option string :=
  let here :=
    if negb (String.eqb s "") && all_chars (fun c => negb (is_line_terminator c)) s
    then Some s else None in
  match s with
  | String c s' =>
      if is_space c then
        match blanks_then_group s' with
        | Some t => Some t
        | None => here
        end
      else here
  | EmptyString => here
  end.

(** [auth.match(/^Bearer\s+(.+)$/i)] and its group 1: the token, or
    [None] for null. *)
Definition match_bearer (auth : string) : option string :=
  match strip_prefix_ci "bearer" auth with
  | Some (String c r) => if is_space c then blanks_then_group r else None
  | _ => None
  end.

Definition dquote : string := String (ascii_of_nat 34) EmptyString.

Definition DEMO_BEARER : string := "secret-token-123".

(** [token !== DEMO_BEARER] *)
Definition token_invalid (token : option string) : bool :=
  match token with
  | Some t => negb (String.eqb t DEMO_BEARER)
  | None => true
  end.

Definition isProtectedMethod (m : string) : bool :=
  existsb (String.eqb m) ["POST"; "PUT"; "PATCH"; "DELETE"].

Section Server.

Context (R : Runtime).

Local Abbreviation value := (JSValue (num R)).

(** [body.k] for a key that no prototype defines, as [title] and [author]
    are: an own property of an object, undefined ([None]) otherwise. *)
Definition get_prop (v : value) (k : string) : option value :=
  match v with
  | JObj props => assoc k props
  | _ => None
  end.

(** [!!v] *)
Definition truthy (v : value) : bool :=
  match v with
  | JNull => false
  | JBool b => b
  | JNum n => num_truthy R n
  | JStr s => negb (String.eqb s "")
  | JArr _ => true
  | JObj _ => true
  end.

(** [!!body.k] *)
Definition truthy_prop (v : value) (k : string) : bool :=
  match get_prop v k with
  | Some x => truthy x
  | None => false
  end.

(** [String(v)].  An array is joined with commas, null elements printing
    as nothing; an object prints as [[object Object]], unless it has a
    [toString] property of its own: a parsed value is never callable, the
    inherited [valueOf] returns the object itself, and the conversion
    throws a TypeError. *)
Fixpoint String_ (v : value) : Completion string :=
  match v with
  | JNull => Normal "null"
  | JBool b => Normal (if b then "true" else "false")
  | JNum n => Normal (num_toString R n)
  | JStr s => Normal s
  | JArr items =>
      (fix join (l : list value) : Completion string :=
         match l with
         | [] => Normal ""
         | x :: l' =>
             match (match x with JNull => Normal "" | _ => String_ x end) with
             | Throw e => Throw e
             | Normal s =>
                 match l' with
                 | [] => Normal s
                 | _ :: _ =>
                     match join l' with
                     | Throw e => Throw e
                     | Normal r => Normal (s ++ "," ++ r)
                     end
                 end
             end
         end) items
  | JObj props =>
      match assoc "toString" props with
      | Some _ => Throw TypeError
      | None => Normal "[object Object]"
      end
  end.

(** [String(body.k)] *)
Definition String_prop (v : value) (k : string) : Completion string :=
  match get_prop v k with
  | Some x => String_ x
  | None => Normal "undefined"
  end.

(** What the promise of [readBody] resolves to once the stream has ended
    with the text [raw]. *)
Definition parse_body (raw : string) : value :=
  if String.eqb raw "" then JNull
  else match JSON_parse R raw with
       | Some v => v
       | None => JStr raw
       end.

(** [await readBody(req)]: the promise is rejected when the stream fails,
    and the [await] throws. *)
Definition readBody (req : Request) : M value :=
  match body req with
  | StreamEnd raw => ret (parse_body raw)
  | StreamError => throw StreamFailure
  end.

Definition sendJSON (status : Z) (payload : Payload) : M unit :=
  let text := JSON_stringify R payload in
  setHeader "Content-Type" "application/json; charset=utf-8" ;;
  setHeader "Content-Length" (decimal (byteLength text)) ;;
  set_statusCode status ;;
  end_ (Some payload).

(** [!body || !body.title || !body.author] *)
Definition missing_title_or_author (b : value) : bool :=
  negb (truthy b) || negb (truthy_prop b "title") || negb (truthy_prop b "author").

(** GET /books *)
Definition list_books (req : Request) : M unit :=
  let limit := parseInt (or_default (searchParams_get req "limit") "10") in
  let page := parseInt (or_default (searchParams_get req "page") "1") in
  let author_q := searchParams_get req "author" in
  all <- get_books ;;
  let list := filter_by_author author_q all in
  let startIdx := js_mul (js_sub page (Fin 1)) limit in
  let pageItems := slice list startIdx (js_add startIdx limit) in
  sendJSON 200 (PList page limit (Z.of_nat (List.length list)) pageItems).

(** GET /books/:id *)
Definition get_book (ds : string) (cookies : list (string * string)) : M unit :=
  let i := Number_of_digits ds in
  all <- get_books ;;
  match find_book i all with
  | None => sendJSON 404 (PError "Not found")
  | Some book =>
      setHeader "X-Server-Note" "served-by-node-http" ;;
      sendJSON 200 (PDataCookies book cookies)
  end.

(** POST /books *)
Definition create_book (req : Request) (env : Env) : M unit :=
  b <- readBody req ;;
  if missing_title_or_author b
  then sendJSON 400 (PError "Missing title or author in request body")
  else
    n <- post_increment_nextId ;;
    t <- lift (String_prop b "title") ;;
    a <- lift (String_prop b "author") ;;
    let book := mkBook (Fin n) t a in
    all <- get_books ;;
    set_books (all ++ [book]) ;;
    setHeader "Set-Cookie" ("sessionId=" ++ sessionId env ++ "; HttpOnly; Path=/") ;;
    sendJSON 201 (PData book).

(** PUT /books/:id *)
Definition replace_book (req : Request) (ds : string) : M unit :=
  let i := Number_of_digits ds in
  b <- readBody req ;;
  if missing_title_or_author b
  then sendJSON 400 (PError "Missing title or author in request body")
  else
    all <- get_books ;;
    match findIndex i all with
    | None => sendJSON 404 (PError "Not found")
    | Some idx =>
        t <- lift (String_prop b "title") ;;
        a <- lift (String_prop b "author") ;;
        let book := mkBook i t a in
        set_books (set_nth idx book all) ;;
        sendJSON 200 (PData book)
    end.

(** [if (body.k !== undefined) book.k = String(body.k)]: [book] is the
    element of [books] that [books.find] returned, so the assignment
    changes the array. *)
Definition patch_field (b : value) (k : string) (i : JSNumber)
  (assign : string -> Book -> Book) (book : Book) : M Book :=
  match get_prop b k with
  | None => ret book
  | Some x =>
      s <- lift (String_ x) ;;
      let book' := assign s book in
      all <- get_books ;;
      set_books (update_first i (fun _ => book') all) ;;
      ret book'
  end.

(** PATCH /books/:id *)
Definition patch_book (req : Request) (ds : string) : M unit :=
  let i := Number_of_digits ds in
  b <- readBody req ;;
  if negb (truthy b) then sendJSON 400 (PError "Missing body")
  else
    all <- get_books ;;
    match find_book i all with
    | None => sendJSON 404 (PError "Not found")
    | Some book =>
        book1 <- patch_field b "title" i
                   (fun s bk => mkBook (id bk) s (author bk)) book ;;
        book2 <- patch_field b "author" i
                   (fun s bk => mkBook (id bk) (title bk) s) book1 ;;
        sendJSON 200 (PData book2)
    end.

(** DELETE /books/:id *)
Definition delete_book (ds : string) : M unit :=
  let i := Number_of_digits ds in
  all <- get_books ;;
  match findIndex i all with
  | None => sendJSON 404 (PError "Not found")
  | Some idx =>
      let removed := nth_error all idx in
      set_books (remove_nth idx all) ;;
      sendJSON 200 (match removed with Some b => PData b | None => PNoData end)
  end.

(** The body of the [try] block. *)
Definition route (req : Request) (env : Env)
  (cookies : list (string * string)) (m : option (option string)) : M unit :=
  if String.eqb (method req) "GET" && String.eqb (pathname req) "/books"
  then list_books req
  else
  match (if String.eqb (method req) "GET" then bookMatch_id m else None) with
  | Some ds => get_book ds cookies
  | None =>
  if isProtectedMethod (method req) && startsWith (pathname req) "/books"
     && token_invalid (match_bearer (or_default (authorization req) ""))
  then
    setHeader "WWW-Authenticate" ("Bearer realm=" ++ dquote ++ "simple-demo" ++ dquote) ;;
    sendJSON 401 (PError "Unauthorized - invalid or missing bearer token")
  else
  if String.eqb (method req) "POST" && String.eqb (pathname req) "/books"
  then create_book req env
  else
  match bookMatch_id m with
  | Some ds =>
      if String.eqb (method req) "PUT" then replace_book req ds
      else if String.eqb (method req) "PATCH" then patch_book req ds
      else if String.eqb (method req) "DELETE" then delete_book ds
      else sendJSON 404 (PError "Route not found")
  | None => sendJSON 404 (PError "Route not found")
  end
  end.

(** The request listener passed to [http.createServer]. *)
Definition server (req : Request) (env : Env) : M unit :=
  setHeader "Access-Control-Allow-Origin" "*" ;;
  setHeader "Access-Control-Allow-Methods" "GET,POST,PUT,PATCH,DELETE,OPTIONS" ;;
  setHeader "Access-Control-Allow-Headers" "Content-Type,Authorization" ;;
  if String.eqb (method req) "OPTIONS"
  then set_statusCode 204 ;; end_ None
  else
    let cookies := parseCookies (cookie req) in
    let m := bookMatch (pathname req) in
    try_catch_finally
      (route req env cookies m)
      (fun _ => sendJSON 500 (PError "Internal Server Error"))
      (let ms := now_end env - now_start env in
       setHeader "X-Response-Time-ms" (decimal ms)).

(** One request served on a fresh response object: the store it leaves,
    the response that went out, if any, and how the listener completed. *)
Definition serve (st : Store) (req : Request) (env : Env)
  : Store * option Wire * Completion unit :=
  let '(c, (st', res)) := server req env (st, fresh_res) in
  (st', sent res, c).

Definition store_after (st : Store) (req : Request) (env : Env) : Store :=
  fst (fst (serve st req env)).

Definition response (st : Store) (req : Request) (env : Env) : option Wire :=
  snd (fst (serve st req env)).

End Server.

(** ** A runtime to compute with

    An executable [Runtime] for concrete runs.  Its [JSON.parse] reads the
    fragment of JSON whose numbers are integer literals below 2^53 in
    magnitude and whose strings have no [\u] escapes, and rejects what lies
    outside the fragment; its [JSON.stringify] prints integers below 1e21
    in magnitude as JavaScript does. *)
Module Fragment.

Definition is_json_space (c : ascii) : bool :=
  (code c =? 32) || (code c =? 9) || (code c =? 10) || (code c =? 13).

Fixpoint skip_ws (s : string) : string :=
  match s with
  | String c s' => if is_json_space c then skip_ws s' else s
  | EmptyString => EmptyString
  end.

(** The characters of a string literal after its opening quote. *)
Fixpoint parse_chars (s : string) : option (string * string) :=
  match s with
  | EmptyString => None
  | String c s' =>
      if code c =? 34 then Some (EmptyString, s')
      else if code c <? 32 then None
      else if code c =? 92 then
        match s' with
        | String e s'' =>
            let unescaped :=
              if code e =? 34 then Some e
              else if code e =? 92 then Some e
              else if code e =? 47 then Some e
              else if code e =? 98 then Some (ascii_of_nat 8)
              else if code e =? 102 then Some (ascii_of_nat 12)
              else if code e =? 110 then Some (ascii_of_nat 10)
              else if code e =? 114 then Some (ascii_of_nat 13)
              else if code e =? 116 then Some (ascii_of_nat 9)
              else None in
            match unescaped, parse_chars s'' with
            | Some u, Some (t, r) => Some (String u t, r)
            | _, _ => None
            end
        | EmptyString => None
        end
      else match parse_chars s' with
           | Some (t, r) => Some (String c t, r)
           | None => None
           end
  end.

(** An integer literal: an optional minus, then 0 or a digit string
    without a leading 0; a fraction or an exponent is outside the
    fragment. *)
Definition parse_int (s : string) : option (Z * string) :=
  let (neg, s1) :=
    match s with
    | String "-"%char r => (true, r)
    | _ => (false, s)
    end in
  let (d, r) := span_digits s1 in
  let leading_zero :=
    match d with
    | String "0"%char (String _ _) => true
    | _ => false
    end in
  let continues :=
    match r with
    | String c _ => (code c =? 46) || (code c =? 101) || (code c =? 69)
    | EmptyString => false
    end in
  if String.eqb d "" || leading_zero || continues
     || (2 ^ 53 <=? digits_value d)
  then None
  else Some (if neg then - digits_value d else digits_value d, r).

Fixpoint parse_value (fuel : nat) (s : string) {struct fuel}
  : option (JSValue Z * string) :=
  match fuel with
  | O => None
  | S fuel' =>
      match skip_ws s with
      | EmptyString => None
      | String c r as s0 =>
          if code c =? 34 then
            match parse_chars r with
            | Some (t, r') => Some (JStr t, r')
            | None => None
            end
          else if code c =? 91 then
            match skip_ws r with
            | String "]"%char r' => Some (JArr [], r')
            | _ => match parse_elems fuel' r [] with
                   | Some (l, r') => Some (JArr l, r')
                   | None => None
                   end
            end
          else if code c =? 123 then
            match skip_ws r with
            | String "}"%char r' => Some (JObj [], r')
            | _ => match parse_members fuel' r [] with
                   | Some (l, r') => Some (JObj l, r')
                   | None => None
                   end
            end
          else
            match strip_prefix "null" s0, strip_prefix "true" s0,
                  strip_prefix "false" s0 with
            | Some r', _, _ => Some (JNull, r')
            | _, Some r', _ => Some (JBool true, r')
            | _, _, Some r' => Some (JBool false, r')
            | _, _, _ =>
                match parse_int s0 with
                | Some (z, r') => Some (JNum z, r')
                | None => None
                end
            end
      end
  end
with parse_elems (fuel : nat) (s : string) (acc : list (JSValue Z)) {struct fuel}
  : option (list (JSValue Z) * string) :=
  match fuel with
  | O => None
  | S fuel' =>
      match parse_value fuel' s with
      | Some (v, r) =>
          match skip_ws r with
          | String ","%char r' => parse_elems fuel' r' (acc ++ [v])%list
          | String "]"%char r' => Some ((acc ++ [v])%list, r')
          | _ => None
          end
      | None => None
      end
  end
with parse_members (fuel : nat) (s : string) (acc : list (string * JSValue Z))
  {struct fuel} : option (list (string * JSValue Z) * string) :=
  match fuel with
  | O => None
  | S fuel' =>
      match skip_ws s with
      | String c r =>
          if code c =? 34 then
            match parse_chars r with
            | Some (k, r1) =>
                match skip_ws r1 with
                | String ":"%char r2 =>
                    match parse_value fuel' r2 with
                    | Some (v, r3) =>
                        match skip_ws r3 with
                        | String ","%char r4 =>
                            parse_members fuel' r4 (assoc_set k v acc)
                        | String "}"%char r4 => Some (assoc_set k v acc, r4)
                        | _ => None
                        end
                    | None => None
                    end
                | _ => None
                end
            | None => None
            end
          else None
      | EmptyString => None
      end
  end.

Definition parse (s : string) : option (JSValue Z) :=
  match parse_value (S (String.length s)) s with
  | Some (v, r) => if String.eqb (skip_ws r) "" then Some v else None
  | None => None
  end.

Definition hex_digit (n : Z) : ascii :=
  ascii_of_nat (Z.to_nat (if n <? 10 then 48 + n else 87 + n)).

Fixpoint quote_chars (s : string) : string :=
  match s with
  | EmptyString => EmptyString
  | String c s' =>
      let n := code c in
      let esc (e : string) := String (ascii_of_nat 92) e in
      (if n =? 34 then esc dquote
       else if n =? 92 then esc (String (ascii_of_nat 92) EmptyString)
       else if n =? 8 then esc "b"
       else if n =? 9 then esc "t"
       else if n =? 10 then esc "n"
       else if n =? 12 then esc "f"
       else if n =? 13 then esc "r"
       else if n <? 32
            then esc ("u00" ++ String (hex_digit (n / 16))
                                 (String (hex_digit (n mod 16)) EmptyString))
       else String c EmptyString) ++ quote_chars s'
  end.

Definition quote (s : string) : string := dquote ++ quote_chars s ++ dquote.

Definition print_number (n : JSNumber) : string :=
  match n with
  | Fin z => decimal z
  | _ => "null"
  end.

Definition print_book (b : Book) : string :=
  "{" ++ quote "id" ++ ":" ++ print_number (id b) ++ ","
      ++ quote "title" ++ ":" ++ quote (title b) ++ ","
      ++ quote "author" ++ ":" ++ quote (author b) ++ "}".

Fixpoint join_commas (l : list string) : string :=
  match l with
  | [] => EmptyString
  | [x] => x
  | x :: l' => x ++ "," ++ join_commas l'
  end.

Definition stringify (p : Payload) : string :=
  match p with
  | PList page limit total data =>
      "{" ++ quote "page" ++ ":" ++ print_number page ++ ","
          ++ quote "limit" ++ ":" ++ print_number limit ++ ","
          ++ quote "total" ++ ":" ++ decimal total ++ ","
          ++ quote "data" ++ ":[" ++ join_commas (map print_book data) ++ "]}"
  | PData b => "{" ++ quote "data" ++ ":" ++ print_book b ++ "}"
  | PNoData => "{}"
  | PDataCookies b cookies =>
      "{" ++ quote "data" ++ ":" ++ print_book b ++ ","
          ++ quote "cookies" ++ ":{"
          ++ join_commas (map (fun kv => quote (fst kv) ++ ":" ++ quote (snd kv)) cookies)
          ++ "}}"
  | PError msg => "{" ++ quote "error" ++ ":" ++ quote msg ++ "}"
  end.

Definition runtime : Runtime :=
  {| num := Z;
     num_truthy := fun z => negb (z =? 0);
     num_toString := decimal;
     JSON_parse := parse;
     JSON_stringify := stringify |}.

End Fragment.

(** ** Requests to compute with *)

Abbreviation RT := Fragment.runtime.

(** The text of an object whose values are strings. *)
Definition object_text (fields : list (string * string)) : string :=
  "{" ++ Fragment.join_commas
           (map (fun kv => Fragment.quote (fst kv) ++ ":" ++ Fragment.quote (snd kv))
                fields)
      ++ "}".

Definition good_token : option string := Some "Bearer secret-token-123".

Definition env0 : Env :=
  {| now_start := 1000; now_end := 1003; sessionId := "00112233445566778899aabb" |}.

Definition request (m path : string) (query : list (string * string))
  (auth : option string) (raw : string) : Request :=
  {| method := m; pathname := path; searchParams := query;
     authorization := auth; cookie := None; body := StreamEnd raw |}.

Definition book1 : Book := mkBook (Fin 1) "Eloquent JS" "Marijn Haverbeke".
Definition book2 : Book := mkBook (Fin 2) "You Don't Know JS" "Kyle Simpson".
Definition book3 : Book := mkBook (Fin 3) "Clean Code" "Robert C. Martin".

(** POST /books with a wrong token and without [author] *)
Definition post_bad_token : Request :=
  request "POST" "/books" [] (Some "Bearer wrong-token") (object_text [("title", "X")]).

(** PUT /books/2 without [author] *)
Definition put_without_author : Request :=
  request "PUT" "/books/2" [] good_token (object_text [("title", "T")]).

(** PATCH /books/1 with a body that is not JSON *)
Definition patch_raw_text : Request :=
  request "PATCH" "/books/1" [] good_token "not json".


(** GET /books?limit=-1 *)
Definition get_negative_limit : Request :=
  request "GET" "/books" [("limit", "-1")] None "".

(** GET /books?limit=abc *)
Definition get_limit_abc : Request :=
  request "GET" "/books" [("limit", "abc")] None "".

(** GET /books?limit= *)
Definition get_limit_empty : Request :=
  request "GET" "/books" [("limit", "")] None "".


(** POST /books with a title and an author *)
Definition post_new_book : Request :=
  request "POST" "/books" [] good_token
          (object_text [("title", "New Book"); ("author", "Anon")]).



(** GET /books/2 *)
Definition get_second : Request := request "GET" "/books/2" [] None "".

(** GET /books/4 *)
Definition get_fourth : Request := request "GET" "/books/4" [] None "".

(** ** Vocabulary of the statements *)

Definition status_of (o : option Wire) : option Z := option_map w_status o.

Definition payload_of (o : option Wire) : option Payload :=
  match o with
  | Some w => w_body w
  | None => None
  end.

Definition header_of (o : option Wire) (name : string) : option string :=
  match o with
  | Some w => assoc name (w_headers w)
  | None => None
  end.

(** The request carries [Authorization: Bearer secret-token-123]. *)
Definition valid_token (req : Request) : Prop :=
  match_bearer (or_default (authorization req) "") = Some DEMO_BEARER.

(** Where [find] and [findIndex] stop: at the first book with the id. *)
Definition first_at (i : JSNumber) (l pre : list Book) (b : Book) (post : list Book)
  : Prop :=
  l = (pre ++ b :: post)%list /\
  strict_eq (id b) i = true /\
  Forall (fun x => strict_eq (id x) i = false) pre.



Section Vocabulary.

Context (R : Runtime).

(** [body.k] is undefined. *)
Definition lacks (v : JSValue (num R)) (k : string) : Prop :=
  get_prop R v k = None.

(** What PATCH assigns to a field: the string of the value the body
    supplies, or what the field holds when the body supplies none. *)
Definition supplied (o : option (JSValue (num R))) (old : string)
  : Completion string :=
  match o with
  | Some v => String_ R v
  | None => Normal old
  end.

(** The states of the store that some sequence of requests leads to. *)
Inductive reachable_from (st : Store) : Store -> Prop :=
| reachable_refl : reachable_from st st
| reachable_step st' req env :
    reachable_from st st' ->
    reachable_from st (store_after R st' req env).




(** The wording of C2 for one request: a body that is not empty and is
    not JSON makes a POST, PUT or PATCH end in 400. *)
Definition raw_text_is_rejected (st : Store) (req : Request) (env : Env) : Prop :=
  forall raw,
    In (method req) ["POST"; "PUT"; "PATCH"] ->
    body req = StreamEnd raw ->
    raw <> "" ->
    JSON_parse R raw = None ->
    status_of (response R st req env) = Some 400.



(** The wording of C10 for one request: a [limit] or [page] in which
    [parseInt] finds no number gives an empty [data]. *)
Definition unparseable_pagination_is_empty (st : Store) (req : Request) (env : Env)
  : Prop :=
  forall s,
    method req = "GET" ->
    pathname req = "/books" ->
    searchParams_get req "limit" = Some s \/ searchParams_get req "page" = Some s ->
    parseInt s = NaN ->
    exists page limit total,
      payload_of (response R st req env) = Some (PList page limit total []).

End Vocabulary.

(** ** Vocabulary of the further statements *)

(** The same request with another end of its body stream. *)
Definition with_body (req : Request) (b : BodyStream) : Request :=
  {| method := method req; pathname := pathname req;
     searchParams := searchParams req; authorization := authorization req;
     cookie := cookie req; body := b |}.

(** The same request under another method. *)
Definition with_method (req : Request) (m : string) : Request :=
  {| method := m; pathname := pathname req;
     searchParams := searchParams req; authorization := authorization req;
     cookie := cookie req; body := body req |}.

(** The character [c] does not occur in [s]. *)
Definition no_char (c : ascii) (s : string) : Prop :=
  all_chars (fun x => negb (Ascii.eqb x c)) s = true.

(** The request names one of the routes of the listener. *)
Definition has_route (req : Request) : Prop :=
  method req = "OPTIONS" \/
  (method req = "GET" /\
   (pathname req = "/books" \/ bookMatch_id (bookMatch (pathname req)) <> None)) \/
  (method req = "POST" /\ pathname req = "/books") \/
  (In (method req) ["PUT"; "PATCH"; "DELETE"] /\
   bookMatch_id (bookMatch (pathname req)) <> None).

(** The authorization gate stops the request. *)
Definition gate_rejects (req : Request) : Prop :=
  isProtectedMethod (method req) = true /\
  startsWith (pathname req) "/books" = true /\
  ~ valid_token req.

(** ** Further requests to compute with *)

(** OPTIONS /anything *)
Definition options_anywhere : Request := request "OPTIONS" "/anything" [] None "".

(** PUT /books/2 with both fields *)
Definition put_full : Request :=
  request "PUT" "/books/2" [] good_token
          (object_text [("title", "T"); ("author", "A")]).

(** PUT /books/2 on a request stream that fails *)
Definition put_failing_stream : Request :=
  mkRequest "PUT" "/books/2" [] good_token None StreamError.

(** POST /books without a body *)
Definition post_empty_body : Request := request "POST" "/books" [] good_token "".

(** The text of an object with a string [title] and, as [author], an
    object that has a [toString] of its own. *)
Definition bad_author_text : string :=
  "{" ++ Fragment.quote "title" ++ ":" ++ Fragment.quote "X" ++ ","
      ++ Fragment.quote "author" ++ ":{" ++ Fragment.quote "toString" ++ ":1}}".

(** PATCH /books/1 with that body *)
Definition patch_bad_author : Request :=
  request "PATCH" "/books/1" [] good_token bad_author_text.


(** * Properties *)

Local Open Scope list_scope.

Arguments decimal : simpl never.
Arguments byteLength : simpl never.
Arguments bookMatch : simpl never.
Arguments bookMatch_id : simpl never.
Arguments parseCookies : simpl never.
Arguments match_bearer : simpl never.
Arguments parseInt : simpl never.
Arguments Number_of_digits : simpl never.
Arguments slice : simpl never.
Arguments startsWith : simpl never.
Arguments round_double : simpl never.
Arguments isProtectedMethod : simpl never.
Arguments token_invalid : simpl never.
Arguments find_book : simpl never.
Arguments js_mul : simpl never.
Arguments js_add : simpl never.
Arguments js_sub : simpl never.
Arguments or_default : simpl never.
Arguments String_prop : simpl never.
Arguments missing_title_or_author : simpl never.
Arguments truthy : simpl never.
Arguments truthy_prop : simpl never.
Arguments get_prop : simpl never.
Arguments String_ : simpl never.
Arguments parse_body : simpl never.

(** ** Numbers and slices *)

Example round_double_above_2_53 : round_double (2 ^ 53 + 1) = Fin (2 ^ 53).
Proof. reflexivity. Qed.

Example round_double_ties_to_even : round_double (2 ^ 53 + 3) = Fin (2 ^ 53 + 4).
Proof. reflexivity. Qed.

Example round_double_30_digits :
  round_double 123456789012345678901234567890
  = Fin 123456789012345677877719597056.
Proof. vm_compute. reflexivity. Qed.

Example round_double_largest :
  round_double (2 ^ 1024 - 2 ^ 970 - 1) = Fin (2 ^ 1024 - 2 ^ 971).
Proof. vm_compute. reflexivity. Qed.

Example round_double_overflow : round_double (2 ^ 1024 - 2 ^ 970) = Inf false.
Proof. vm_compute. reflexivity. Qed.

Example round_double_negative_overflow : round_double (- (10 ^ 400)) = Inf true.
Proof. vm_compute. reflexivity. Qed.

Example parseInt_prefix : parseInt "  -12abc" = Fin (-12).
Proof. reflexivity. Qed.

Example parseInt_no_digit : parseInt "abc" = NaN.
Proof. reflexivity. Qed.

Example parseInt_empty : parseInt "" = NaN.
Proof. reflexivity. Qed.

Example decimal_1203 : decimal 1203 = "1203".
Proof. reflexivity. Qed.

Example trim_blanks : trim "  a b  " = "a b".
Proof. reflexivity. Qed.

Example split_cookie_header : split_on ";" "a=1; b=2;" = ["a=1"; " b=2"; ""].
Proof. reflexivity. Qed.

Example slice_negative_end : slice [1; 2; 3] (Fin 0) (Fin (-1)) = [1; 2].
Proof. reflexivity. Qed.

Example toLowerCase_ascii : toLowerCase "Kyle SIMPSON" = "kyle simpson".
Proof. reflexivity. Qed.

Example match_bearer_two_blanks :
  match_bearer "BEARER  secret-token-123" = Some "secret-token-123".
Proof. reflexivity. Qed.

Example match_bearer_backtracks : match_bearer "Bearer   " = Some " ".
Proof. reflexivity. Qed.

Example match_bearer_no_blank : match_bearer "Bearersecret-token-123" = None.
Proof. reflexivity. Qed.

Example bookMatch_id_route : bookMatch "/books/0042" = Some (Some "0042").
Proof. reflexivity. Qed.

Example bookMatch_collection : bookMatch "/books" = Some None.
Proof. reflexivity. Qed.

Example bookMatch_trailing_slash : bookMatch "/books/" = None.
Proof. reflexivity. Qed.

Lemma round_double_exact z :
  Z.abs z <= 2 ^ 53 -> round_double z = Fin z.
Proof.
  intros H. unfold round_double.
  destruct (Z.ltb_spec (Z.abs z) (2 ^ 53)) as [|Hge]; [reflexivity|].
  assert (E : Z.abs z = 2 ^ 53) by lia.
  destruct (Z.abs_eq_or_opp z) as [E'|E']; rewrite E' in E.
  - subst z. reflexivity.
  - assert (z = - 2 ^ 53) by lia. subst z. reflexivity.
Qed.




Lemma js_mul_NaN_r a : js_mul a NaN = NaN.
Proof. now destruct a. Qed.


(** ** Looking books up *)

Lemma strict_eq_true a b : strict_eq a b = true -> a = b.
Proof.
  destruct a as [|s|x], b as [|t|y]; cbn; try discriminate.
  - intros H. apply Bool.eqb_prop in H. now subst.
  - intros H. apply Z.eqb_eq in H. now subst.
Qed.


Lemma find_book_first i l b :
  find_book i l = Some b -> exists pre post, first_at i l pre b post.
Proof.
  unfold find_book, first_at. induction l as [|x l IH]; cbn; [discriminate|].
  destruct (strict_eq (id x) i) eqn:E.
  - intros [= <-]. now exists [], l.
  - intros H. destruct (IH H) as (pre & post & -> & Hb & Hpre).
    exists (x :: pre), post. repeat split; auto.
Qed.

Lemma first_at_find_book i l pre b post :
  first_at i l pre b post -> find_book i l = Some b.
Proof.
  unfold find_book. intros (-> & Hb & Hpre).
  induction Hpre as [|x pre Hx _ IH]; cbn.
  - now rewrite Hb.
  - now rewrite Hx.
Qed.

Lemma findIndex_first i l idx :
  findIndex i l = Some idx ->
  exists pre b post, first_at i l pre b post /\ List.length pre = idx.
Proof.
  unfold first_at. revert idx. induction l as [|x l IH]; cbn; [discriminate|].
  intros idx. destruct (strict_eq (id x) i) eqn:E.
  - intros [= <-]. now exists [], x, l.
  - destruct (findIndex i l) as [n|]; [|discriminate].
    intros [= <-]. destruct (IH n eq_refl) as (pre & b & post & (-> & Hb & Hpre) & Hn).
    exists (x :: pre), b, post. cbn. repeat split; auto.
Qed.


Lemma remove_nth_middle pre b post :
  remove_nth (List.length pre) (pre ++ b :: post) = pre ++ post.
Proof. induction pre as [|x pre IH]; cbn; [reflexivity|now rewrite IH]. Qed.

Lemma set_nth_middle pre b b' post :
  set_nth (List.length pre) b' (pre ++ b :: post) = pre ++ b' :: post.
Proof. induction pre as [|x pre IH]; cbn; [reflexivity|now rewrite IH]. Qed.

Lemma update_first_middle i f l pre b post :
  first_at i l pre b post -> update_first i f l = pre ++ f b :: post.
Proof.
  intros (-> & Hb & Hpre).
  induction Hpre as [|x pre Hx _ IH]; cbn.
  - now rewrite Hb.
  - now rewrite Hx, IH.
Qed.

(** ** Routes *)

Lemma isProtectedMethod_cases m :
  isProtectedMethod m = true ->
  m = "POST" \/ m = "PUT" \/ m = "PATCH" \/ m = "DELETE".
Proof.
  unfold isProtectedMethod. cbn [existsb].
  rewrite !orb_true_iff, !String.eqb_eq. intuition discriminate.
Qed.

Lemma bookMatch_digits p ds :
  bookMatch p = Some (Some ds) ->
  ds <> "" /\ all_chars is_digit ds = true /\
  strip_prefix "/books" p = Some (String "/" ds).
Proof.
  unfold bookMatch. destruct (strip_prefix "/books" p) as [[|c r]|]; try discriminate.
  destruct (Ascii.eqb_spec c "/"); cbn [andb]; [|discriminate].
  destruct (String.eqb_spec r ""); cbn [andb negb]; [discriminate|].
  destruct (all_chars is_digit r) eqn:E; [|discriminate].
  intros [= <-]. subst c. auto.
Qed.

Lemma bookMatch_id_Some p ds :
  bookMatch p = Some (Some ds) -> bookMatch_id (bookMatch p) = Some ds.
Proof.
  intros H. destruct (bookMatch_digits _ _ H) as (Hne & _ & _).
  rewrite H. unfold bookMatch_id.
  destruct (String.eqb_spec ds ""); congruence.
Qed.

Lemma bookMatch_id_inv p ds :
  bookMatch_id (bookMatch p) = Some ds -> bookMatch p = Some (Some ds).
Proof.
  unfold bookMatch_id. destruct (bookMatch p) as [[d|]|]; try discriminate.
  destruct (String.eqb d ""); [discriminate|]. now intros [= ->].
Qed.

Lemma token_valid auth :
  match_bearer auth = Some DEMO_BEARER -> token_invalid (match_bearer auth) = false.
Proof. intros ->. reflexivity. Qed.

Lemma token_invalid_iff t :
  token_invalid t = true <-> t <> Some DEMO_BEARER.
Proof.
  unfold token_invalid. destruct t as [t|]; [|split; congruence].
  destruct (String.eqb_spec t DEMO_BEARER); cbn; split; congruence.
Qed.

(** ** The request listener *)

Ltac run :=
  cbv beta iota zeta delta
    [try_catch_finally bind ret throw lift get_books set_books
     post_increment_nextId setHeader set_statusCode end_ sendJSON
     fst snd sent headers statusCode books nextId fresh_res].

Ltac split_case :=
  match goal with
  | |- context [match ?x with _ => _ end] =>
      lazymatch x with
      | context [match _ with _ => _ end] => fail
      | _ => destruct x eqn:?
      end
  end.

Ltac unfold_server :=
  unfold response, store_after, serve, server, route, list_books, get_book,
    create_book, replace_book, patch_book, patch_field, delete_book, readBody.

Ltac eval_strings := cbn [String.eqb Ascii.eqb Bool.eqb andb orb negb].

Section ServerFacts.

Context (R : Runtime).

Lemma lacks_missing b :
  lacks R b "title" \/ lacks R b "author" ->
  missing_title_or_author R b = true.
Proof.
  unfold lacks, missing_title_or_author, truthy_prop.
  intros [H|H]; rewrite H; cbn [negb]; rewrite ?orb_true_r; reflexivity.
Qed.

Lemma parse_body_raw raw :
  raw <> "" -> JSON_parse R raw = None -> parse_body R raw = JStr raw.
Proof.
  intros Hne Hp. unfold parse_body. rewrite Hp.
  destruct (String.eqb_spec raw ""); congruence.
Qed.

Lemma raw_text_missing raw : missing_title_or_author R (JStr raw) = true.
Proof. apply lacks_missing. left. reflexivity. Qed.

Lemma raw_text_truthy raw : raw <> "" -> truthy R (JStr raw) = true.
Proof.
  intros H. unfold truthy.
  destruct (String.eqb_spec raw ""); [contradiction|reflexivity].
Qed.

(** Whatever the request, a response goes out, and it goes out without
    the timing header: the [finally] block runs after [res.end]. *)
Lemma every_response_lacks_timing_header st req env :
  exists w,
    response R st req env = Some w /\
    assoc "X-Response-Time-ms" (w_headers w) = None.
Proof.
  destruct st as [bs n]. unfold_server. run.
  repeat (split_case; run).
  all: eexists; split; reflexivity.
Qed.

(** Off the preflight branch the listener's promise is rejected: the
    [setHeader] of the [finally] block throws. *)
Lemma listener_rejects st req env :
  method req <> "OPTIONS" ->
  snd (serve R st req env) = Throw ERR_HTTP_HEADERS_SENT.
Proof.
  intros Hm. destruct st as [bs n]. unfold_server.
  destruct (String.eqb_spec (method req) "OPTIONS") as [|_]; [contradiction|].
  run. repeat (split_case; run). all: reflexivity.
Qed.

(** The response to [OPTIONS] is sent by the early [return] before the
    [try] statement: status 204 and the three CORS headers. *)
Lemma options_response st path query auth cookies stream env :
  response R st (mkRequest "OPTIONS" path query auth cookies stream) env
  = Some (mkWire 204
            [ ("Access-Control-Allow-Origin", "*");
              ("Access-Control-Allow-Methods", "GET,POST,PUT,PATCH,DELETE,OPTIONS");
              ("Access-Control-Allow-Headers", "Content-Type,Authorization") ]
            None).
Proof. destruct st. reflexivity. Qed.

(** C1 fails on the code: whatever the request, the response that goes out
    has no [X-Response-Time-ms] header.  The preflight response is sent
    before the [try] statement, and on every other path the [finally]
    block calls [setHeader] after [res.end] has flushed the headers. *)
Theorem timing_header_is_never_sent st req env :
  response R st req env <> None /\
  header_of (response R st req env) "X-Response-Time-ms" = None.
Proof.
  destruct (every_response_lacks_timing_header st req env) as (w & Hw & Hh).
  rewrite Hw. split; [discriminate|exact Hh].
Qed.

(** The authorization gate: it stands before every route that reads a
    body. *)
Lemma auth_gate_response st req env :
  isProtectedMethod (method req) = true ->
  startsWith (pathname req) "/books" = true ->
  ~ valid_token req ->
  status_of (response R st req env) = Some 401 /\
  header_of (response R st req env) "WWW-Authenticate"
    = Some ("Bearer realm=" ++ dquote ++ "simple-demo" ++ dquote)%string /\
  payload_of (response R st req env)
    = Some (PError "Unauthorized - invalid or missing bearer token") /\
  store_after R st req env = st.
Proof.
  intros Hm Hp Ht. apply token_invalid_iff in Ht.
  destruct st as [bs n]. unfold_server.
  rewrite Hm, Hp, Ht.
  destruct (isProtectedMethod_cases _ Hm) as [E|[E|[E|E]]]; rewrite E;
    eval_strings; run; repeat split; reflexivity.
Qed.

(** C3: a POST, PUT, PATCH or DELETE on a path that begins with /books
    whose Authorization header is missing, or whose bearer token is not the
    shared secret, is answered 401 with a WWW-Authenticate header, whatever
    its body holds or lacks, and leaves the store as it was. *)
Theorem auth_gate_rejects st req env :
  isProtectedMethod (method req) = true ->
  startsWith (pathname req) "/books" = true ->
  ~ valid_token req ->
  status_of (response R st req env) = Some 401 /\
  header_of (response R st req env) "WWW-Authenticate" <> None /\
  payload_of (response R st req env)
    = Some (PError "Unauthorized - invalid or missing bearer token") /\
  store_after R st req env = st.
Proof.
  intros Hm Hp Ht.
  destruct (auth_gate_response st req env Hm Hp Ht) as (H1 & H2 & H3 & H4).
  rewrite H2. repeat split; auto. discriminate.
Qed.

(** C4: an authorized PUT /books/:id whose body lacks [title] or lacks
    [author] is answered 400, and the collection and the counter are what
    they were. *)
Theorem put_missing_field_is_400 st req env ds raw :
  method req = "PUT" ->
  bookMatch (pathname req) = Some (Some ds) ->
  valid_token req ->
  body req = StreamEnd raw ->
  lacks R (parse_body R raw) "title" \/ lacks R (parse_body R raw) "author" ->
  status_of (response R st req env) = Some 400 /\
  payload_of (response R st req env)
    = Some (PError "Missing title or author in request body") /\
  store_after R st req env = st.
Proof.
  intros Hm Hp Hv Hb Hl. destruct st as [bs n]. unfold_server.
  rewrite Hm, (bookMatch_id_Some _ _ Hp), Hb, (token_valid _ Hv).
  eval_strings. rewrite andb_false_r. run.
  rewrite (lacks_missing _ Hl). run. repeat split; reflexivity.
Qed.

(** C2, as the code has it: with a valid token, a body that is not empty
    and is not JSON reaches the routes as its raw text.  POST /books and
    PUT /books/:id find neither [title] nor [author] on it and answer 400;
    PATCH /books/:id only asks for a body, finds no field to assign, and
    answers 200 with the record as it was, or 404 when there is no such
    record.  The store is unchanged in every case. *)
Theorem raw_text_body_outcome st req env raw :
  body req = StreamEnd raw ->
  raw <> "" ->
  JSON_parse R raw = None ->
  valid_token req ->
  parse_body R raw = JStr raw /\
  (method req = "POST" -> pathname req = "/books" ->
   status_of (response R st req env) = Some 400 /\
   store_after R st req env = st) /\
  (forall ds, method req = "PUT" -> bookMatch (pathname req) = Some (Some ds) ->
   status_of (response R st req env) = Some 400 /\
   store_after R st req env = st) /\
  (forall ds, method req = "PATCH" -> bookMatch (pathname req) = Some (Some ds) ->
   store_after R st req env = st /\
   match find_book (Number_of_digits ds) (books st) with
   | Some b =>
       status_of (response R st req env) = Some 200 /\
       payload_of (response R st req env) = Some (PData b)
   | None => status_of (response R st req env) = Some 404
   end).
Proof.
  intros Hb Hne Hp Hv. pose proof (parse_body_raw _ Hne Hp) as Hraw.
  split; [exact Hraw|]. destruct st as [bs n]. split; [|split].
  - intros Hm Hpath. unfold_server.
    rewrite Hm, Hpath, Hb, (token_valid _ Hv).
    eval_strings. rewrite andb_false_r. run.
    rewrite Hraw, raw_text_missing. run. split; reflexivity.
  - intros ds Hm Hpath. unfold_server.
    rewrite Hm, (bookMatch_id_Some _ _ Hpath), Hb, (token_valid _ Hv).
    eval_strings. rewrite andb_false_r. run.
    rewrite Hraw, raw_text_missing. run. split; reflexivity.
  - intros ds Hm Hpath. unfold_server. cbn [books].
    rewrite Hm, (bookMatch_id_Some _ _ Hpath), Hb, (token_valid _ Hv).
    eval_strings. rewrite andb_false_r. run. rewrite Hraw.
    rewrite (raw_text_truthy _ Hne). cbn [negb].
    destruct (find_book (Number_of_digits ds) bs); run;
      repeat split; reflexivity.
Qed.

(** GET /books is answered 200 whatever its query. *)
Lemma list_books_is_200 st req env :
  method req = "GET" -> pathname req = "/books" ->
  status_of (response R st req env) = Some 200 /\
  store_after R st req env = st.
Proof.
  intros Hm Hp. destruct st as [bs n]. unfold_server. rewrite Hm, Hp.
  eval_strings. run. split; reflexivity.
Qed.

Lemma list_books_payload st req env :
  method req = "GET" -> pathname req = "/books" ->
  let limit := parseInt (or_default (searchParams_get req "limit") "10") in
  let page := parseInt (or_default (searchParams_get req "page") "1") in
  let list := filter_by_author (searchParams_get req "author") (books st) in
  let startIdx := js_mul (js_sub page (Fin 1)) limit in
  payload_of (response R st req env)
  = Some (PList page limit (Z.of_nat (List.length list))
                (slice list startIdx (js_add startIdx limit))).
Proof.
  intros Hm Hp. destruct st as [bs n]. unfold_server. rewrite Hm, Hp.
  eval_strings. run. reflexivity.
Qed.



(** C10, for parameters that are not empty: when [limit] or [page] is a
    non-empty string in which [parseInt] finds no number, GET /books still
    answers 200, with [total] the size of the filtered collection and an
    empty [data]. *)
Theorem unparseable_pagination_gives_empty_page st req env :
  method req = "GET" ->
  pathname req = "/books" ->
  (exists s, searchParams_get req "limit" = Some s /\ s <> "" /\ parseInt s = NaN) \/
  (exists s, searchParams_get req "page" = Some s /\ s <> "" /\ parseInt s = NaN) ->
  let filtered := filter_by_author (searchParams_get req "author") (books st) in
  status_of (response R st req env) = Some 200 /\
  (exists page limit,
     payload_of (response R st req env)
     = Some (PList page limit (Z.of_nat (List.length filtered)) [])) /\
  store_after R st req env = st.
Proof.
  intros Hm Hpath Hnan filtered.
  destruct (list_books_is_200 st req env Hm Hpath) as [H200 Hst].
  repeat split; auto.
  rewrite (list_books_payload st req env Hm Hpath).
  do 2 eexists. f_equal. f_equal.
  assert (E : forall s, s <> "" -> forall d, or_default (Some s) d = s).
  { intros s Hs d. unfold or_default. destruct (String.eqb_spec s ""); congruence. }
  destruct Hnan as [(s & Hg & Hs & Hn)|(s & Hg & Hs & Hn)];
    rewrite Hg, (E s Hs), Hn.
  - rewrite js_mul_NaN_r. reflexivity.
  - cbn [js_sub js_neg js_add].
    destruct (parseInt _); reflexivity.
Qed.

(** ** One step of the store *)


Lemma update_first_const_ids i l b b' :
  find_book i l = Some b -> id b' = id b ->
  map id (update_first i (fun _ => b') l) = map id l.
Proof.
  intros H E. destruct (find_book_first _ _ _ H) as (pre & post & Hf).
  rewrite (update_first_middle _ _ _ _ _ _ Hf).
  destruct Hf as (-> & _ & _). rewrite !map_app. cbn [map]. now rewrite E.
Qed.




(** GET /books/:id *)
Lemma get_book_response st req env ds :
  method req = "GET" ->
  bookMatch (pathname req) = Some (Some ds) ->
  store_after R st req env = st /\
  match find_book (Number_of_digits ds) (books st) with
  | Some b =>
      status_of (response R st req env) = Some 200 /\
      payload_of (response R st req env)
      = Some (PDataCookies b (parseCookies (cookie req)))
  | None =>
      status_of (response R st req env) = Some 404 /\
      payload_of (response R st req env) = Some (PError "Not found")
  end.
Proof.
  intros Hm Hp. destruct st as [bs n]. unfold_server. cbn [books].
  rewrite Hm, (bookMatch_id_Some _ _ Hp). eval_strings.
  destruct (String.eqb_spec (pathname req) "/books") as [E|_].
  { rewrite E in Hp. vm_compute in Hp. discriminate. }
  run. destruct (find_book (Number_of_digits ds) bs); run;
    repeat split; reflexivity.
Qed.

(** ** Invariants of the store *)









Lemma reachable_from_trans st1 st2 st3 :
  reachable_from R st1 st2 -> reachable_from R st2 st3 ->
  reachable_from R st1 st3.
Proof.
  intros H12 H23. induction H23; [assumption|]. now constructor.
Qed.





(** PATCH assigns the fields that the body supplies, and only those. *)
Lemma patch_changes_supplied_fields st req env ds raw props t' a' b :
  method req = "PATCH" ->
  bookMatch (pathname req) = Some (Some ds) ->
  valid_token req ->
  body req = StreamEnd raw ->
  parse_body R raw = JObj props ->
  supplied R (assoc "title" props) (title b) = Normal t' ->
  supplied R (assoc "author" props) (author b) = Normal a' ->
  find_book (Number_of_digits ds) (books st) = Some b ->
  let b' := mkBook (id b) t' a' in
  exists pre post,
    first_at (Number_of_digits ds) (books st) pre b post /\
    store_after R st req env = mkStore (pre ++ b' :: post) (nextId st) /\
    status_of (response R st req env) = Some 200 /\
    payload_of (response R st req env) = Some (PData b').
Proof.
  intros Hm Hp Hv Hb Hobj Ht Ha Hf b'.
  destruct (find_book_first _ _ _ Hf) as (pre & post & Hfirst).
  exists pre, post. split; [exact Hfirst|].
  assert (Hfirst' : forall x, id x = id b ->
            first_at (Number_of_digits ds) (pre ++ x :: post) pre x post).
  { intros x Hx. destruct Hfirst as (_ & Hid & Hpre).
    repeat split; auto. now rewrite Hx. }
  destruct st as [bs n]. cbn [books nextId] in *. unfold_server.
  rewrite Hm, (bookMatch_id_Some _ _ Hp), Hb, (token_valid _ Hv).
  eval_strings. rewrite andb_false_r. run. rewrite Hobj.
  change (truthy R (JObj props)) with true. cbn [negb]. rewrite Hf.
  change (get_prop R (JObj props) "title") with (assoc "title" props).
  change (get_prop R (JObj props) "author") with (assoc "author" props).
  unfold b'. clear b'.
  destruct (assoc "title" props) as [vt|], (assoc "author" props) as [va|];
    cbn [supplied] in Ht, Ha; try rewrite Ht; try rewrite Ha; run;
    try injection Ht as <-; try injection Ha as <-;
    cbn [id title author];
    rewrite ?(update_first_middle _ _ _ _ _ _ Hfirst);
    repeat match goal with
      | |- context [update_first ?i ?f (pre ++ ?x :: post)] =>
          rewrite (update_first_middle i f _ pre x post (Hfirst' x eq_refl))
      end;
    destruct Hfirst as (-> & _ & _); destruct b; repeat split; reflexivity.
Qed.





End ServerFacts.

(** ** Concrete runs *)

Example object_text_title :
  JSON_parse RT (object_text [("title", "X")]) = Some (JObj [("title", JStr "X")]).
Proof. reflexivity. Qed.

Example seeded_listing :
  payload_of (response RT seed (request "GET" "/books" [] None "") env0)
  = Some (PList (Fin 1) (Fin 10) 3 [book1; book2; book3]).
Proof. reflexivity. Qed.

Example author_filter_ignores_case :
  payload_of (response RT seed (request "GET" "/books" [("author", "KYLE")] None "") env0)
  = Some (PList (Fin 1) (Fin 10) 1 [book2]).
Proof. reflexivity. Qed.

Example get_response_is_sent_before_the_timing_header :
  serve RT seed get_second env0
  = (seed,
     Some (mkWire 200
             [ ("Access-Control-Allow-Origin", "*");
               ("Access-Control-Allow-Methods", "GET,POST,PUT,PATCH,DELETE,OPTIONS");
               ("Access-Control-Allow-Headers", "Content-Type,Authorization");
               ("X-Server-Note", "served-by-node-http");
               ("Content-Type", "application/json; charset=utf-8");
               ("Content-Length", "82") ]
             (Some (PDataCookies book2 []))),
     Throw ERR_HTTP_HEADERS_SENT).
Proof. reflexivity. Qed.

(** A title that cannot be converted to a string: the counter has moved,
    no book is created, and the answer is 500. *)
Example post_unconvertible_title :
  let raw := ("{" ++ Fragment.quote "title" ++ ":{" ++ Fragment.quote "toString"
                  ++ ":1}," ++ Fragment.quote "author" ++ ":" ++ Fragment.quote "A"
                  ++ "}")%string in
  let req := request "POST" "/books" [] good_token raw in
  status_of (response RT seed req env0) = Some 500 /\
  store_after RT seed req env0 = mkStore (books seed) 5.
Proof. split; reflexivity. Qed.

(** A failing request stream ends in the [catch] block. *)
Example stream_failure_is_500 :
  status_of (response RT seed
               (mkRequest "PUT" "/books/2" [] good_token None StreamError) env0)
  = Some 500.
Proof. reflexivity. Qed.

(** The id of a deleted book is not given out again: after creating book
    4 and deleting it, the next book is book 5. *)
Example deleted_id_is_not_reused :
  let st1 := store_after RT seed post_new_book env0 in
  let st2 := store_after RT st1 (request "DELETE" "/books/4" [] good_token "") env0 in
  map id (books st2) = [Fin 1; Fin 2; Fin 3] /\
  payload_of (response RT st2 post_new_book env0)
  = Some (PData (mkBook (Fin 5) "New Book" "Anon")).
Proof. split; reflexivity. Qed.

(** *** Witnesses *)

Lemma auth_gate_rejects_witness :
  isProtectedMethod (method post_bad_token) = true /\
  startsWith (pathname post_bad_token) "/books" = true /\
  ~ valid_token post_bad_token /\
  status_of (response RT seed post_bad_token env0) = Some 401 /\
  store_after RT seed post_bad_token env0 = seed.
Proof.
  assert (H1 : isProtectedMethod (method post_bad_token) = true) by reflexivity.
  assert (H2 : startsWith (pathname post_bad_token) "/books" = true) by reflexivity.
  assert (H3 : ~ valid_token post_bad_token)
    by (unfold valid_token; vm_compute; discriminate).
  destruct (auth_gate_rejects RT seed post_bad_token env0 H1 H2 H3)
    as (H401 & _ & _ & Hst).
  split; [exact H1|]. split; [exact H2|]. split; [exact H3|].
  split; [exact H401|exact Hst].
Defined.

Lemma put_missing_field_is_400_witness :
  lacks RT (parse_body RT (object_text [("title", "T")])) "author" /\
  status_of (response RT seed put_without_author env0) = Some 400 /\
  store_after RT seed put_without_author env0 = seed.
Proof.
  assert (H : lacks RT (parse_body RT (object_text [("title", "T")])) "author")
    by reflexivity.
  split; [exact H|].
  destruct (put_missing_field_is_400 RT seed put_without_author env0 "2"
              (object_text [("title", "T")])
              eq_refl eq_refl eq_refl eq_refl (or_intror H)) as (H1 & _ & H2).
  split; assumption.
Defined.

Lemma raw_text_body_outcome_witness :
  JSON_parse RT "not json" = None /\
  status_of (response RT seed patch_raw_text env0) = Some 200 /\
  payload_of (response RT seed patch_raw_text env0) = Some (PData book1) /\
  store_after RT seed patch_raw_text env0 = seed.
Proof.
  assert (Hne : "not json" <> "") by discriminate.
  destruct (raw_text_body_outcome RT seed patch_raw_text env0 "not json"
              eq_refl Hne eq_refl eq_refl) as (_ & _ & _ & H).
  destruct (H "1" eq_refl eq_refl) as (Hst & H200 & Hpay).
  split; [reflexivity|]. split; [exact H200|]. split; [exact Hpay|exact Hst].
Defined.


Lemma unparseable_pagination_gives_empty_page_witness :
  parseInt "abc" = NaN /\
  status_of (response RT seed get_limit_abc env0) = Some 200 /\
  payload_of (response RT seed get_limit_abc env0) = Some (PList (Fin 1) NaN 3 []).
Proof.
  assert (Hne : "abc" <> "") by discriminate.
  destruct (unparseable_pagination_gives_empty_page RT seed get_limit_abc env0
              eq_refl eq_refl
              (or_introl (ex_intro _ "abc" (conj eq_refl (conj Hne eq_refl)))))
    as (H200 & _ & _).
  split; [reflexivity|]. split; [exact H200|reflexivity].
Defined.





(** *** Where the wording fails *)

(** C2 as worded fails at PATCH /books/1: the raw text passes the test on
    the body and the answer is 200. *)
Lemma patch_raw_text_is_not_rejected :
  ~ raw_text_is_rejected RT seed patch_raw_text env0.
Proof.
  intros H.
  assert (Hin : In (method patch_raw_text) ["POST"; "PUT"; "PATCH"])
    by (cbn; auto).
  assert (Hne : "not json" <> "") by discriminate.
  specialize (H "not json" Hin eq_refl Hne eq_refl).
  vm_compute in H. discriminate.
Qed.



(** C10 as worded fails at GET /books?limit=: [parseInt] finds no number in
    the empty string, but the code reads 10 in its place and returns the
    three seeded records. *)
Lemma empty_limit_is_not_empty_page :
  ~ unparseable_pagination_is_empty RT seed get_limit_empty env0.
Proof.
  intros H.
  destruct (H "" eq_refl eq_refl (or_introl eq_refl) eq_refl)
    as (page & limit & total & Hp).
  vm_compute in Hp. discriminate.
Qed.

(** * Further properties of the service *)

(** ** What every response has *)

Ltac eval_response :=
  cbv beta iota zeta delta
    [status_of payload_of header_of option_map w_status w_body w_headers
     books nextId assoc assoc_set String.eqb Ascii.eqb Bool.eqb].

(** Case analysis over the exits of the listener: the goal is stated
    once per exit, on the store, the response and the completion that the
    exit leaves. *)
Ltac by_routes st :=
  unfold response, store_after;
  destruct st as [? ?];
  match goal with
  | |- context [serve ?R ?s ?req ?env] =>
      let E := fresh "E" in
      destruct (serve R s req env) as [[? ?] ?] eqn:E;
      cbn [fst snd]; revert E
  end;
  unfold serve, server, route, list_books, get_book, create_book,
    replace_book, patch_book, patch_field, delete_book, readBody;
  run; repeat (split_case; run);
  intros [= <- <- <-].

Ltac norm_tests :=
  repeat match goal with
    | H : (_ && _)%bool = true |- _ =>
        apply andb_true_iff in H; destruct H
    | H : (_ =? _)%string = true |- _ => apply String.eqb_eq in H
    | H : (_ =? _)%string = false |- _ => apply String.eqb_neq in H
    end.

Ltac split_false_tests :=
  repeat match goal with
    | H : (_ && _)%bool = false |- _ =>
        apply andb_false_iff in H; rewrite ?String.eqb_neq in H
    end.

Section ResponseFacts.

Context (R : Runtime).

(** X1: the three CORS headers are set before anything else and go out
    with every response. *)
Theorem cors_headers_on_every_response st req env :
  header_of (response R st req env) "Access-Control-Allow-Origin" = Some "*" /\
  header_of (response R st req env) "Access-Control-Allow-Methods"
    = Some "GET,POST,PUT,PATCH,DELETE,OPTIONS" /\
  header_of (response R st req env) "Access-Control-Allow-Headers"
    = Some "Content-Type,Authorization".
Proof. by_routes st. all: repeat split; reflexivity. Qed.


(** X3: the status of a response is one of 200, 201, 204, 400, 401, 404
    and 500. *)
Theorem status_is_one_of_seven st req env :
  exists c, status_of (response R st req env) = Some c /\
            In c [200; 201; 204; 400; 401; 404; 500].
Proof.
  by_routes st. all: eexists; split; [reflexivity|cbn; tauto].
Qed.

(** X4: [OPTIONS] is answered 204 without a body on any path, with or
    without a token; the store is untouched and the listener completes
    normally. *)
Theorem preflight_is_204 st req env :
  method req = "OPTIONS" ->
  status_of (response R st req env) = Some 204 /\
  payload_of (response R st req env) = None /\
  store_after R st req env = st /\
  snd (serve R st req env) = Normal tt.
Proof.
  intros Hm. destruct st as [bs n]. unfold_server. rewrite Hm.
  eval_strings. run. repeat split; reflexivity.
Qed.

(** X5: a request answered 400, 401 or 404 has changed neither the
    collection nor the counter. *)
Theorem client_errors_leave_the_store st req env c :
  status_of (response R st req env) = Some c ->
  400 <= c < 500 ->
  store_after R st req env = st.
Proof.
  by_routes st. all: intros [= <-] Hc; try reflexivity; lia.
Qed.

(** X6: a GET, on any path, leaves the store as it was. *)
Theorem get_leaves_the_store st req env :
  method req = "GET" -> store_after R st req env = st.
Proof.
  intros Hm. destruct st as [bs n]. unfold_server. rewrite Hm.
  eval_strings. run. repeat (split_case; run). all: reflexivity.
Qed.

Lemma length_set_nth idx b l : List.length (set_nth idx b l) = List.length l.
Proof.
  revert idx. induction l as [|x l IH]; intros [|idx]; cbn; auto.
Qed.

Lemma length_update_first i f l :
  List.length (update_first i f l) = List.length l.
Proof.
  induction l as [|x l IH]; cbn; [reflexivity|].
  destruct (strict_eq (id x) i); cbn; auto.
Qed.

Lemma length_remove_found i l idx :
  findIndex i l = Some idx ->
  S (List.length (remove_nth idx l)) = List.length l.
Proof.
  intros H.
  destruct (findIndex_first _ _ _ H) as (pre & b & post & (-> & _ & _) & <-).
  rewrite remove_nth_middle, !length_app. cbn. lia.
Qed.

(** X7: the answer is 401 exactly when the method is POST, PUT, PATCH or
    DELETE, the path begins with /books, and the request carries no valid
    token; GET and OPTIONS are never asked for one. *)
Theorem unauthorized_exactly_at_the_gate st req env :
  status_of (response R st req env) = Some 401 <->
  isProtectedMethod (method req) = true /\
  startsWith (pathname req) "/books" = true /\
  ~ valid_token req.
Proof.
  split.
  - by_routes st. all: eval_response; intros H; try discriminate H.
    all: norm_tests; repeat split; auto; now apply token_invalid_iff.
  - intros (Hm & Hp & Ht). apply (auth_gate_response R st req env Hm Hp Ht).
Qed.

(** X8: [WWW-Authenticate] is a header of the 401 responses and of no
    other. *)
Theorem challenge_only_on_401 st req env :
  header_of (response R st req env) "WWW-Authenticate" <> None <->
  status_of (response R st req env) = Some 401.
Proof.
  by_routes st. all: eval_response; split; congruence.
Qed.

(** X9: a 201 response sets the session cookie, made of the random hex
    string, [HttpOnly] and [Path=/]; no other response sets a cookie. *)
Theorem session_cookie_only_on_creation st req env :
  (status_of (response R st req env) = Some 201 ->
   header_of (response R st req env) "Set-Cookie"
   = Some ("sessionId=" ++ sessionId env ++ "; HttpOnly; Path=/")%string) /\
  (status_of (response R st req env) <> Some 201 ->
   header_of (response R st req env) "Set-Cookie" = None).
Proof.
  by_routes st.
  all: eval_response; split; intros; try reflexivity; congruence.
Qed.

(** X10: [X-Server-Note] marks the responses that return a single book
    together with the cookies of the request, and only those. *)
Theorem server_note_only_on_single_book st req env :
  header_of (response R st req env) "X-Server-Note" = Some "served-by-node-http" <->
  exists b, payload_of (response R st req env)
            = Some (PDataCookies b (parseCookies (cookie req))).
Proof.
  by_routes st. all: eval_response; split; intros H.
  all: try discriminate H.
  all: try (destruct H as (? & H); discriminate H).
  all: try reflexivity.
  all: eexists; reflexivity.
Qed.

(** X11: a 500 is the answer of a POST, PUT or PATCH only; its body is the
    generic message, and the collection holds the same ids in the same
    order as before. *)
Theorem internal_error_is_generic st req env :
  status_of (response R st req env) = Some 500 ->
  payload_of (response R st req env) = Some (PError "Internal Server Error") /\
  In (method req) ["POST"; "PUT"; "PATCH"] /\
  map id (books (store_after R st req env)) = map id (books st).
Proof.
  by_routes st. all: eval_response; intros H500; try discriminate H500.
  all: norm_tests; cbn [In]; repeat split; auto.
  all: try reflexivity.
  all: match goal with
       | H : find_book ?i ?l = Some ?b |- map id (update_first ?i _ ?l) = _ =>
           apply (update_first_const_ids i l b); [exact H|reflexivity]
       end.
Qed.

(** X12: the collection grows by one record with a 201, shrinks by one
    with a DELETE answered 200, and keeps its size otherwise. *)
Theorem collection_size_changes st req env :
  let n := List.length (books st) in
  let n' := List.length (books (store_after R st req env)) in
  (status_of (response R st req env) = Some 201 -> n' = S n) /\
  (method req = "DELETE" -> status_of (response R st req env) = Some 200 ->
   S n' = n) /\
  (status_of (response R st req env) <> Some 201 ->
   (method req = "DELETE" -> status_of (response R st req env) <> Some 200) ->
   n' = n).
Proof.
  by_routes st. all: eval_response; norm_tests.
  all: repeat split; intros; try congruence; try reflexivity.
  all: rewrite ?length_app, ?length_set_nth, ?length_update_first; cbn [List.length].
  all: try lia.
  all: try match goal with
       | H : findIndex _ _ = Some _ |- _ =>
           pose proof (length_remove_found _ _ _ H)
       end.
  all: try lia.
  all: exfalso; match goal with H : _ -> _ <> _ |- _ => apply H; auto end.
Qed.

End ResponseFacts.

(** ** The routes *)

Section RouteFacts.

Context (R : Runtime).

Lemma first_at_index i l pre b post :
  first_at i l pre b post -> findIndex i l = Some (List.length pre).
Proof.
  intros (-> & Hb & Hpre).
  induction Hpre as [|x pre Hx _ IH]; cbn [app List.length findIndex].
  - now rewrite Hb.
  - now rewrite Hx, IH.
Qed.

Lemma findIndex_find_book i l idx :
  findIndex i l = Some idx -> exists b, find_book i l = Some b.
Proof.
  intros H. destruct (findIndex_first _ _ _ H) as (pre & b & post & Hf & _).
  exists b. now apply (first_at_find_book i l pre b post).
Qed.

Lemma truthy_prop_truthy b k :
  truthy_prop R b k = true -> truthy R b = true.
Proof.
  unfold truthy_prop, get_prop.
  destruct b; try discriminate. reflexivity.
Qed.

Lemma fields_present b :
  truthy_prop R b "title" = true ->
  truthy_prop R b "author" = true ->
  missing_title_or_author R b = false.
Proof.
  intros Ht Ha. unfold missing_title_or_author.
  now rewrite (truthy_prop_truthy _ _ Ht), Ht, Ha.
Qed.

(** The shape of a PUT that goes through. *)
Lemma put_response st req env ds raw t a b :
  method req = "PUT" ->
  bookMatch (pathname req) = Some (Some ds) ->
  valid_token req ->
  body req = StreamEnd raw ->
  missing_title_or_author R (parse_body R raw) = false ->
  String_prop R (parse_body R raw) "title" = Normal t ->
  String_prop R (parse_body R raw) "author" = Normal a ->
  find_book (Number_of_digits ds) (books st) = Some b ->
  let b' := mkBook (id b) t a in
  exists pre post,
    first_at (Number_of_digits ds) (books st) pre b post /\
    store_after R st req env = mkStore (pre ++ b' :: post) (nextId st) /\
    status_of (response R st req env) = Some 200 /\
    payload_of (response R st req env) = Some (PData b').
Proof.
  intros Hm Hp Hv Hb Hmiss Ht Ha Hf b'.
  destruct (find_book_first _ _ _ Hf) as (pre & post & Hfirst).
  exists pre, post. split; [exact Hfirst|].
  pose proof (first_at_index _ _ _ _ _ Hfirst) as Hidx.
  assert (Hid : Number_of_digits ds = id b).
  { destruct Hfirst as (_ & E & _). symmetry. now apply strict_eq_true. }
  destruct st as [bs n]. cbn [books nextId] in *. unfold_server.
  rewrite Hm, (bookMatch_id_Some _ _ Hp), Hb, (token_valid _ Hv).
  eval_strings. rewrite andb_false_r. run.
  rewrite Hmiss, Hidx, Ht, Ha. run.
  destruct Hfirst as (-> & _ & _). rewrite set_nth_middle, Hid.
  repeat split; reflexivity.
Qed.

(** X13: an authorized PUT /books/:id whose body has a truthy [title] and
    a truthy [author] that convert to strings replaces the first record of
    that id by one with the same id and the two strings, is answered 200
    with the new record, and leaves the other records, their order and the
    counter as they were. *)
Theorem put_replaces_the_record st req env ds raw t a b :
  method req = "PUT" ->
  bookMatch (pathname req) = Some (Some ds) ->
  valid_token req ->
  body req = StreamEnd raw ->
  truthy_prop R (parse_body R raw) "title" = true ->
  truthy_prop R (parse_body R raw) "author" = true ->
  String_prop R (parse_body R raw) "title" = Normal t ->
  String_prop R (parse_body R raw) "author" = Normal a ->
  find_book (Number_of_digits ds) (books st) = Some b ->
  let b' := mkBook (id b) t a in
  exists pre post,
    first_at (Number_of_digits ds) (books st) pre b post /\
    store_after R st req env = mkStore (pre ++ b' :: post) (nextId st) /\
    status_of (response R st req env) = Some 200 /\
    payload_of (response R st req env) = Some (PData b').
Proof.
  intros Hm Hp Hv Hb Htt Hta Ht Ha Hf.
  apply (put_response st req env ds raw t a b); auto using fields_present.
Qed.

Lemma round_double_not_NaN z : round_double z <> NaN.
Proof.
  unfold round_double. cbv zeta.
  destruct (Z.abs z <? 2 ^ 53); [discriminate|].
  match goal with |- (if ?c then _ else _) <> _ => destruct c end;
    discriminate.
Qed.

Lemma Number_of_digits_not_NaN ds : Number_of_digits ds <> NaN.
Proof. apply round_double_not_NaN. Qed.

Lemma strict_eq_refl i : i <> NaN -> strict_eq i i = true.
Proof.
  destruct i as [|s|z]; cbn; [congruence| |].
  - intros _. now destruct s.
  - intros _. apply Z.eqb_refl.
Qed.

(** X14: GET /books/:id answers 200 with the first record of the
    collection whose id is the number of the path, together with the parsed
    cookies of the request, and marks the response with [X-Server-Note]. *)
Theorem get_returns_the_first_record st req env ds b :
  method req = "GET" ->
  bookMatch (pathname req) = Some (Some ds) ->
  find_book (Number_of_digits ds) (books st) = Some b ->
  status_of (response R st req env) = Some 200 /\
  payload_of (response R st req env)
    = Some (PDataCookies b (parseCookies (cookie req))) /\
  header_of (response R st req env) "X-Server-Note" = Some "served-by-node-http" /\
  id b = Number_of_digits ds /\
  exists pre post,
    books st = pre ++ b :: post /\
    Forall (fun x => id x <> Number_of_digits ds) pre.
Proof.
  intros Hm Hp Hf.
  destruct (find_book_first _ _ _ Hf) as (pre & post & Hbooks & Hid & Hpre).
  assert (Hresp : response R st req env
                  = Some (mkWire 200
                            (assoc_set "Content-Length"
                               (decimal (byteLength (JSON_stringify R
                                  (PDataCookies b (parseCookies (cookie req))))))
                               (assoc_set "Content-Type" "application/json; charset=utf-8"
                                  (assoc_set "X-Server-Note" "served-by-node-http"
                                     [ ("Access-Control-Allow-Origin", "*");
                                       ("Access-Control-Allow-Methods",
                                        "GET,POST,PUT,PATCH,DELETE,OPTIONS");
                                       ("Access-Control-Allow-Headers",
                                        "Content-Type,Authorization") ])))
                            (Some (PDataCookies b (parseCookies (cookie req)))))).
  { destruct st as [bs n]. cbn [books] in Hf. unfold_server.
    rewrite Hm, (bookMatch_id_Some _ _ Hp). eval_strings.
    destruct (String.eqb_spec (pathname req) "/books") as [E|_].
    { rewrite E in Hp. vm_compute in Hp. discriminate. }
    run. rewrite Hf. run. reflexivity. }
  rewrite Hresp. repeat split; try reflexivity.
  - now apply strict_eq_true.
  - exists pre, post. split; [exact Hbooks|].
    eapply Forall_impl; [|exact Hpre]. cbn. intros x Hx E.
    rewrite E, (strict_eq_refl _ (Number_of_digits_not_NaN ds)) in Hx.
    discriminate.
Qed.

(** The routes that address a record, on an id that no record has. *)
Lemma absent_id_response st req env ds :
  bookMatch (pathname req) = Some (Some ds) ->
  find_book (Number_of_digits ds) (books st) = None ->
  store_after R st req env = st /\
  (method req = "GET" \/
   (method req = "DELETE" /\ valid_token req) \/
   (exists raw,
      body req = StreamEnd raw /\ valid_token req /\
      ((method req = "PUT" /\ missing_title_or_author R (parse_body R raw) = false) \/
       (method req = "PATCH" /\ truthy R (parse_body R raw) = true))) ->
   status_of (response R st req env) = Some 404 /\
   payload_of (response R st req env) = Some (PError "Not found")).
Proof.
  intros Hp Hf. pose proof (bookMatch_id_Some _ _ Hp) as Hid.
  assert (Hnb : pathname req <> "/books").
  { intros E. rewrite E in Hp. vm_compute in Hp. discriminate. }
  assert (Hfi : findIndex (Number_of_digits ds) (books st) = None).
  { destruct (findIndex _ _) as [idx|] eqn:E; [|reflexivity].
    destruct (findIndex_find_book _ _ _ E) as (b & Hb). congruence. }
  split.
  - destruct st as [bs n]. cbn [books] in *. unfold_server. run.
    rewrite Hid. repeat (split_case; run).
    all: try reflexivity.
    all: norm_tests; congruence.
  - intros [Hm|[[Hm Hv]|(raw & Hb & Hv & [[Hm Hok]|[Hm Hok]])]];
      destruct st as [bs n]; cbn [books] in *; unfold_server;
      rewrite Hm, Hid, ?Hb, ?(token_valid _ Hv); eval_strings;
      rewrite ?andb_false_r.
    + destruct (String.eqb_spec (pathname req) "/books") as [E|_]; [contradiction|].
      run. rewrite Hf. run. split; reflexivity.
    + run. rewrite Hfi. run. split; reflexivity.
    + run. rewrite Hok, Hfi. run. split; reflexivity.
    + run. rewrite Hok. cbn [negb]. rewrite Hf. run. split; reflexivity.
Qed.

(** X15: on a path /books/:id whose id no record has, nothing is changed,
    whatever the method; GET, an authorized DELETE, an authorized PUT with
    both fields and an authorized PATCH with a body are answered 404
    "Not found". *)
Theorem unknown_id_is_not_found st req env ds :
  bookMatch (pathname req) = Some (Some ds) ->
  find_book (Number_of_digits ds) (books st) = None ->
  store_after R st req env = st /\
  (method req = "GET" \/
   (method req = "DELETE" /\ valid_token req) \/
   (exists raw,
      body req = StreamEnd raw /\ valid_token req /\
      ((method req = "PUT" /\ missing_title_or_author R (parse_body R raw) = false) \/
       (method req = "PATCH" /\ truthy R (parse_body R raw) = true))) ->
   status_of (response R st req env) = Some 404 /\
   payload_of (response R st req env) = Some (PError "Not found")).
Proof. exact (absent_id_response st req env ds). Qed.

Lemma routed_response_is_not_route_not_found st req env :
  has_route req \/ gate_rejects req ->
  payload_of (response R st req env) <> Some (PError "Route not found").
Proof.
  intros H. by_routes st. all: eval_response. all: try discriminate.
  all: intros _; destruct H as [Hr|(Hm & Hp & Ht)].
  all: try (apply token_invalid_iff in Ht; unfold valid_token in *;
            rewrite ?Hm, ?Hp, ?Ht in *; cbn [andb] in *; congruence).
  all: unfold has_route in Hr; cbn [In andb] in *; norm_tests.
  all: repeat match goal with
       | H' : (_ && _)%bool = false |- _ =>
           apply andb_false_iff in H'; rewrite ?String.eqb_neq in H'
       end.
  all: norm_tests; intuition congruence.
Qed.

Lemma unrouted_response st req env :
  ~ has_route req -> ~ gate_rejects req ->
  payload_of (response R st req env) = Some (PError "Route not found") /\
  status_of (response R st req env) = Some 404 /\
  store_after R st req env = st.
Proof.
  intros Hr Hg. by_routes st. all: eval_response.
  all: try (repeat split; reflexivity).
  all: exfalso; norm_tests.
  all: try (apply Hr; unfold has_route; cbn [In]; intuition congruence).
  all: apply Hg; unfold gate_rejects, valid_token; repeat split; auto;
       now apply token_invalid_iff.
Qed.

(** X16: the answer is 404 "Route not found" exactly when the request
    names none of the routes and is not stopped by the authorization
    gate; the store is then unchanged. *)
Theorem route_not_found_exactly_off_the_routes st req env :
  (payload_of (response R st req env) = Some (PError "Route not found") <->
   ~ has_route req /\ ~ gate_rejects req) /\
  (payload_of (response R st req env) = Some (PError "Route not found") ->
   status_of (response R st req env) = Some 404 /\
   store_after R st req env = st).
Proof.
  assert (Hoff : payload_of (response R st req env)
                 = Some (PError "Route not found") ->
                 ~ has_route req /\ ~ gate_rejects req).
  { intros H. split; intros Hx;
      apply (routed_response_is_not_route_not_found st req env); auto. }
  split; [split; [exact Hoff|]|].
  - intros [Hr Hg]. apply (unrouted_response st req env Hr Hg).
  - intros H. destruct (Hoff H) as [Hr Hg].
    apply (unrouted_response st req env Hr Hg).
Qed.

Lemma parse_body_empty : parse_body R "" = JNull.
Proof. reflexivity. Qed.

(** X17: an empty body is read as null without calling [JSON.parse]: an
    authorized POST /books or PUT /books/:id is answered 400 for the
    missing fields, an authorized PATCH /books/:id is answered 400 for the
    missing body, and the store is unchanged. *)
Theorem empty_body_is_400 st req env :
  body req = StreamEnd "" ->
  valid_token req ->
  ((method req = "POST" /\ pathname req = "/books") \/
   (method req = "PUT" /\ bookMatch_id (bookMatch (pathname req)) <> None) ->
   status_of (response R st req env) = Some 400 /\
   payload_of (response R st req env)
   = Some (PError "Missing title or author in request body") /\
   store_after R st req env = st) /\
  (method req = "PATCH" /\ bookMatch_id (bookMatch (pathname req)) <> None ->
   status_of (response R st req env) = Some 400 /\
   payload_of (response R st req env) = Some (PError "Missing body") /\
   store_after R st req env = st).
Proof.
  intros Hb Hv. pose proof (token_valid _ Hv) as Ht.
  destruct st as [bs n]. unfold_server. rewrite Hb, Ht, !andb_false_r.
  run. rewrite parse_body_empty.
  change (missing_title_or_author R JNull) with true.
  change (truthy R JNull) with false. cbn [negb].
  repeat (split_case; run). all: eval_response; norm_tests.
  all: split; intros Hroute; try (repeat split; reflexivity).
  all: exfalso; split_false_tests; intuition congruence.
Qed.


(** X19: GET, DELETE and OPTIONS do not read the body: whatever the
    request stream holds, or however it fails, the store, the response and
    the completion are the same. *)
Theorem body_is_read_by_post_put_patch_only st req env b' :
  In (method req) ["GET"; "DELETE"; "OPTIONS"] ->
  serve R st (with_body req b') env = serve R st req env.
Proof.
  intros Hm. unfold serve, server, route, list_books, get_book, create_book,
    replace_book, patch_book, delete_book, with_body.
  cbn [method pathname searchParams authorization cookie body searchParams_get].
  cbn [In] in Hm. destruct Hm as [<-|[<-|[<-|[]]]]; reflexivity.
Qed.

(** X20: PATCH is not atomic: when the supplied title converts to a
    string and the supplied author does not, the record already has the new
    title when the conversion throws, and the answer is 500. *)
Theorem patch_keeps_the_title_when_the_author_throws
  st req env ds raw props vt va t e b :
  method req = "PATCH" ->
  bookMatch (pathname req) = Some (Some ds) ->
  valid_token req ->
  body req = StreamEnd raw ->
  parse_body R raw = JObj props ->
  assoc "title" props = Some vt ->
  assoc "author" props = Some va ->
  String_ R vt = Normal t ->
  String_ R va = Throw e ->
  find_book (Number_of_digits ds) (books st) = Some b ->
  status_of (response R st req env) = Some 500 /\
  exists pre post,
    first_at (Number_of_digits ds) (books st) pre b post /\
    store_after R st req env
    = mkStore (pre ++ mkBook (id b) t (author b) :: post) (nextId st).
Proof.
  intros Hm Hp Hv Hb Hobj Ht Ha Hst Hsa Hf.
  destruct (find_book_first _ _ _ Hf) as (pre & post & Hfirst).
  destruct st as [bs n]. cbn [books nextId] in *. unfold_server.
  rewrite Hm, (bookMatch_id_Some _ _ Hp), Hb, (token_valid _ Hv).
  eval_strings. rewrite andb_false_r. run. rewrite Hobj.
  change (truthy R (JObj props)) with true. cbn [negb]. rewrite Hf.
  change (get_prop R (JObj props) "title") with (assoc "title" props).
  change (get_prop R (JObj props) "author") with (assoc "author" props).
  rewrite Ht, Ha, Hst, Hsa. run.
  rewrite (update_first_middle _ _ _ _ _ _ Hfirst).
  split; [reflexivity|]. exists pre, post. split; [exact Hfirst|reflexivity].
Qed.


Lemma strip_prefix_prefix a s r :
  strip_prefix a s = Some r -> prefix a s = true.
Proof.
  revert s. induction a as [|c a IH]; intros s; [now destruct s|].
  destruct s as [|d s]; cbn [strip_prefix prefix]; [discriminate|].
  destruct (Ascii.eqb_spec c d) as [->|]; [|discriminate].
  intros H. destruct (ascii_dec d d); [eauto|contradiction].
Qed.

Lemma bookMatch_startsWith p ds :
  bookMatch p = Some (Some ds) -> startsWith p "/books" = true.
Proof.
  intros H. destruct (bookMatch_digits _ _ H) as (_ & _ & Hs).
  unfold startsWith. exact (strip_prefix_prefix _ _ _ Hs).
Qed.

Lemma token_invalid_false t :
  token_invalid t = false -> t = Some DEMO_BEARER.
Proof.
  unfold token_invalid. destruct t as [t|]; [|discriminate].
  destruct (String.eqb_spec t DEMO_BEARER); cbn [negb];
    [congruence|discriminate].
Qed.

(** What a PUT answered 200 has gone through. *)
Lemma put_ok_inv st req env :
  method req = "PUT" ->
  status_of (response R st req env) = Some 200 ->
  exists ds raw t a b,
    bookMatch (pathname req) = Some (Some ds) /\
    valid_token req /\
    body req = StreamEnd raw /\
    missing_title_or_author R (parse_body R raw) = false /\
    String_prop R (parse_body R raw) "title" = Normal t /\
    String_prop R (parse_body R raw) "author" = Normal a /\
    find_book (Number_of_digits ds) (books st) = Some b.
Proof.
  intros Hm. by_routes st. all: eval_response; intros H200; try discriminate H200.
  all: norm_tests; try congruence.
  all: match goal with
       | Hid : bookMatch_id _ = Some ?ds, Hb : body _ = StreamEnd ?raw,
         Hi : findIndex _ _ = Some _,
         Ht : String_prop _ _ "title" = Normal ?t,
         Ha : String_prop _ _ "author" = Normal ?a |- _ =>
           destruct (findIndex_find_book _ _ _ Hi) as (b & Hfb);
           apply bookMatch_id_inv in Hid;
           exists ds, raw, t, a, b; repeat split; auto
       end.
  all: unfold valid_token; apply token_invalid_false.
  all: match goal with
       | Hg : (_ && _ && token_invalid _)%bool = false,
         Hid : bookMatch _ = Some (Some _) |- _ =>
           rewrite Hm, (bookMatch_startsWith _ _ Hid) in Hg; exact Hg
       end.
Qed.



(** X23: a PATCH that supplies both fields does what the PUT does: where
    a PUT is answered 200, the same request sent as a PATCH is answered
    200 with the same record and leaves the same store. *)
Theorem patch_with_both_fields_is_put st req env :
  method req = "PUT" ->
  status_of (response R st req env) = Some 200 ->
  let req' := with_method req "PATCH" in
  store_after R st req' env = store_after R st req env /\
  status_of (response R st req' env) = Some 200 /\
  payload_of (response R st req' env) = payload_of (response R st req env).
Proof.
  intros Hm H200 req'.
  destruct (put_ok_inv st req env Hm H200)
    as (ds & raw & t & a & b & Hp & Hv & Hb & Hok & Ht & Ha & Hf).
  destruct (put_response st req env ds raw t a b Hm Hp Hv Hb Hok Ht Ha Hf)
    as (pre & post & Hfirst & Hst & _ & Hpay).
  unfold missing_title_or_author in Hok.
  apply orb_false_iff in Hok. destruct Hok as [Hok Hta].
  apply orb_false_iff in Hok. destruct Hok as [_ Htt].
  apply negb_false_iff in Htt, Hta.
  unfold truthy_prop, String_prop, get_prop in *.
  destruct (parse_body R raw) as [| | | | |props] eqn:Hobj; try discriminate.
  destruct (assoc "title" props) as [vt|] eqn:Et; [|discriminate].
  destruct (assoc "author" props) as [va|] eqn:Ea; [|discriminate].
  destruct (patch_changes_supplied_fields R st req' env ds raw props t a b)
    as (pre2 & post2 & Hfirst2 & Hst2 & H200' & Hpay'); auto.
  - now rewrite Et.
  - now rewrite Ea.
  - rewrite Hst, Hst2, Hpay, Hpay'. repeat split; auto.
    rewrite <- (update_first_middle _ (fun _ => mkBook (id b) t a) _ _ _ _ Hfirst).
    rewrite <- (update_first_middle _ (fun _ => mkBook (id b) t a) _ _ _ _ Hfirst2).
    reflexivity.
Qed.

End RouteFacts.

(** ** Cookies *)

Lemma assoc_set_keys {A : Type} k (v : A) l k' :
  In k' (map fst (assoc_set k v l)) <-> k' = k \/ In k' (map fst l).
Proof.
  induction l as [|[k0 v0] l IH]; cbn.
  - intuition.
  - destruct (String.eqb_spec k k0) as [->|Hne]; cbn;
      [intuition congruence|].
    rewrite IH. tauto.
Qed.

Lemma assoc_set_keys_NoDup {A : Type} k (v : A) l :
  NoDup (map fst l) -> NoDup (map fst (assoc_set k v l)).
Proof.
  induction l as [|[k0 v0] l IH]; cbn; intros Hnd.
  - constructor; [intros []|constructor].
  - inversion Hnd as [|? ? Hk0 Hl]; subst.
    destruct (String.eqb_spec k k0) as [->|Hne]; cbn.
    + now constructor.
    + constructor; [|auto]. rewrite assoc_set_keys. intros [E|Hin]; auto.
Qed.

Lemma assoc_assoc_set {A : Type} k (v : A) l :
  assoc k (assoc_set k v l) = Some v.
Proof.
  induction l as [|[k0 v0] l IH]; cbn.
  - now rewrite String.eqb_refl.
  - destruct (String.eqb_spec k k0) as [->|Hne]; cbn.
    + now rewrite String.eqb_refl.
    + destruct (String.eqb_spec k k0); [contradiction|exact IH].
Qed.

Lemma parse_cookie_part_keeps out part :
  NoDup (map fst out) /\ ~ In "__proto__" (map fst out) ->
  NoDup (map fst (parse_cookie_part out part)) /\
  ~ In "__proto__" (map fst (parse_cookie_part out part)).
Proof.
  intros [Hnd Hp]. unfold parse_cookie_part.
  destruct (split_on "=" part) as [|k rest]; [now split|].
  destruct (String.eqb k ""); [now split|].
  destruct (String.eqb_spec (trim k) "__proto__") as [|Hne]; [now split|].
  split; [now apply assoc_set_keys_NoDup|].
  rewrite assoc_set_keys. intros [E|Hin]; auto.
Qed.

Lemma fold_cookie_parts_keep parts out :
  NoDup (map fst out) /\ ~ In "__proto__" (map fst out) ->
  NoDup (map fst (fold_left parse_cookie_part parts out)) /\
  ~ In "__proto__" (map fst (fold_left parse_cookie_part parts out)).
Proof.
  revert out. induction parts as [|part parts IH]; intros out H; cbn; auto.
  apply IH. now apply parse_cookie_part_keeps.
Qed.

(** X24: [parseCookies] returns each cookie name once, whatever the
    header repeats, and never a cookie named [__proto__]; without a header,
    or with an empty one, it returns no cookie. *)
Theorem cookie_names_are_distinct h :
  NoDup (map fst (parseCookies h)) /\
  ~ In "__proto__" (map fst (parseCookies h)) /\
  (h = None \/ h = Some "" -> parseCookies h = []).
Proof.
  assert (Hnil : NoDup (map fst (@nil (string * string))) /\
                 ~ In "__proto__" (map fst (@nil (string * string)))).
  { split; [constructor|intros []]. }
  unfold parseCookies. destruct h as [h|].
  - destruct (String.eqb_spec h "") as [->|Hne].
    + repeat split; auto; apply Hnil.
    + destruct (fold_cookie_parts_keep (split_on ";" h) [] Hnil) as [H1 H2].
      repeat split; auto. intros [E|[= E]]; congruence.
  - repeat split; auto; apply Hnil.
Qed.

Lemma split_on_not_nil sep s : split_on sep s <> [].
Proof.
  destruct s as [|c s]; cbn; [discriminate|].
  destruct (Ascii.eqb c sep); [discriminate|].
  destruct (split_on sep s); discriminate.
Qed.

Lemma split_on_app sep a b :
  split_on sep (a ++ String sep b)%string = split_on sep a ++ split_on sep b.
Proof.
  induction a as [|c a IH]; cbn.
  - now rewrite Ascii.eqb_refl.
  - destruct (Ascii.eqb c sep); rewrite IH; [reflexivity|].
    pose proof (split_on_not_nil sep a) as Hne.
    destruct (split_on sep a) as [|p ps]; [contradiction|reflexivity].
Qed.

Lemma split_on_absent sep s : no_char sep s -> split_on sep s = [s].
Proof.
  unfold no_char. induction s as [|c s IH]; cbn; [reflexivity|].
  destruct (Ascii.eqb c sep); cbn; [discriminate|].
  intros H. now rewrite (IH H).
Qed.

Lemma no_char_app c a b :
  no_char c a -> no_char c b -> no_char c (a ++ b)%string.
Proof.
  unfold no_char. induction a as [|x a IH]; cbn; auto.
  destruct (negb (Ascii.eqb x c)); cbn; [auto|discriminate].
Qed.

(** X25: a cookie that comes later in the header overrides what came
    before under the same name, and names and values are stored trimmed:
    after any non-empty header, the part [k=v] leaves [trim v] under
    [trim k]. *)
Theorem later_cookie_wins h k v :
  h <> "" ->
  k <> "" ->
  trim k <> "__proto__" ->
  no_char ";" k -> no_char "=" k ->
  no_char ";" v -> no_char "=" v ->
  assoc (trim k) (parseCookies (Some (h ++ ";" ++ k ++ "=" ++ v)%string))
  = Some (trim v).
Proof.
  intros Hh Hk Hproto Hk1 Hk2 Hv1 Hv2. unfold parseCookies.
  destruct (String.eqb_spec (h ++ ";" ++ k ++ "=" ++ v)%string "") as [E|_].
  { destruct h; [contradiction|discriminate]. }
  change (h ++ ";" ++ k ++ "=" ++ v)%string
    with (h ++ String ";" (k ++ String "=" v))%string.
  rewrite split_on_app, fold_left_app.
  rewrite (split_on_absent ";" (k ++ String "=" v)%string).
  2:{ apply no_char_app; [exact Hk1|]. unfold no_char in *. cbn. exact Hv1. }
  cbn [fold_left]. unfold parse_cookie_part at 1.
  rewrite split_on_app, (split_on_absent "=" k Hk2), (split_on_absent "=" v Hv2).
  cbn [app hd_error].
  destruct (String.eqb_spec k ""); [contradiction|].
  destruct (String.eqb_spec (trim k) "__proto__"); [contradiction|].
  rewrite assoc_assoc_set. f_equal. f_equal.
  unfold or_default. destruct (String.eqb_spec v ""); congruence.
Qed.

(** ** Ids in paths *)

Lemma code_of_digit n :
  0 <= n < 10 -> code (ascii_of_nat (Z.to_nat (48 + n))) = 48 + n.
Proof.
  intros Hn. unfold code. rewrite nat_ascii_embedding; lia.
Qed.

Lemma string_app_assoc (a b c : string) :
  ((a ++ b) ++ c = a ++ (b ++ c))%string.
Proof. induction a as [|x a IH]; cbn; [reflexivity|now rewrite IH]. Qed.

Lemma decimal_digits_app fuel n acc :
  decimal_digits fuel n acc = (decimal_digits fuel n "" ++ acc)%string.
Proof.
  revert n acc. induction fuel as [|fuel IH]; intros n acc; cbn; [reflexivity|].
  destruct (n <? 10); [reflexivity|].
  rewrite (IH _ (String _ acc)), (IH _ (String _ "")).
  now rewrite string_app_assoc.
Qed.

Lemma digits_value_from_snoc a s c :
  digits_value_from a (s ++ String c "")%string
  = 10 * digits_value_from a s + (code c - 48).
Proof.
  revert a. induction s as [|x s IH]; intros a; cbn; [reflexivity|apply IH].
Qed.

Lemma all_chars_app p a b :
  all_chars p (a ++ b)%string = all_chars p a && all_chars p b.
Proof.
  induction a as [|x a IH]; cbn; [reflexivity|].
  now rewrite IH, andb_assoc.
Qed.

Lemma decimal_digits_S fuel n acc :
  decimal_digits (S fuel) n acc
  = if n <? 10
    then String (ascii_of_nat (Z.to_nat (48 + n mod 10))) acc
    else decimal_digits fuel (n / 10)
           (String (ascii_of_nat (Z.to_nat (48 + n mod 10))) acc).
Proof. reflexivity. Qed.

Lemma decimal_digits_value fuel n :
  0 <= n < 10 ^ Z.of_nat (S fuel) ->
  digits_value (decimal_digits (S fuel) n "") = n /\
  all_chars is_digit (decimal_digits (S fuel) n "") = true /\
  decimal_digits (S fuel) n "" <> "".
Proof.
  revert n. induction fuel as [|fuel IH]; intros n Hn.
  all: rewrite decimal_digits_S.
  all: assert (Hmod : 0 <= n mod 10 < 10) by (apply Z.mod_pos_bound; lia).
  all: assert (Hc : code (ascii_of_nat (Z.to_nat (48 + n mod 10))) = 48 + n mod 10)
         by now apply code_of_digit.
  all: assert (Hdigit : is_digit (ascii_of_nat (Z.to_nat (48 + n mod 10))) = true)
         by (unfold is_digit; rewrite Hc; apply andb_true_iff;
             split; apply Z.leb_le; lia).
  all: destruct (Z.ltb_spec n 10) as [Hlt|Hge].
  1, 3: unfold digits_value; cbn [digits_value_from all_chars];
        rewrite Hc, Hdigit, Z.mod_small by lia;
        repeat split; [lia|discriminate].
  - change (10 ^ Z.of_nat 1) with 10 in Hn. lia.
  - rewrite decimal_digits_app.
    destruct (IH (n / 10)) as (Hv & Hd & Hne).
    { rewrite (Nat2Z.inj_succ (S fuel)), Z.pow_succ_r in Hn by lia.
      split; [apply Z.div_pos; lia|apply Z.div_lt_upper_bound; lia]. }
    unfold digits_value in *. rewrite digits_value_from_snoc, Hv, Hc.
    rewrite all_chars_app, Hd. cbn [all_chars andb]. rewrite Hdigit.
    repeat split.
    + pose proof (Z.div_mod n 10). lia.
    + destruct (decimal_digits (S fuel) (n / 10) ""); [contradiction|discriminate].
Qed.

Lemma decimal_value z :
  0 <= z ->
  digits_value (decimal z) = z /\
  all_chars is_digit (decimal z) = true /\
  decimal z <> "".
Proof.
  intros Hz. unfold decimal.
  destruct (Z.ltb_spec z 0); [lia|].
  apply decimal_digits_value. split; [lia|].
  rewrite Nat2Z.inj_succ, Z2Nat.id by apply Z.log2_nonneg.
  destruct (Z.eq_dec z 0) as [->|Hnz]; [reflexivity|].
  apply Z.lt_le_trans with (2 ^ Z.succ (Z.log2 z)).
  - apply Z.log2_spec. lia.
  - apply Z.pow_le_mono_l. lia.
Qed.

Lemma bookMatch_of_digits ds :
  ds <> "" -> all_chars is_digit ds = true ->
  bookMatch ("/books/" ++ ds)%string = Some (Some ds).
Proof.
  intros Hne Hd. unfold bookMatch. cbn.
  destruct (String.eqb_spec ds ""); [contradiction|].
  now rewrite Hd.
Qed.

Section PathFacts.

Context (R : Runtime).

(** X26: the decimal form of an id names its record: for an integer [z]
    from 0 to 2^53 the path /books/ followed by the digits of [z] matches
    the route pattern, the digits are read back as [z], and a GET on that
    path returns the first record whose id is [z], or 404 when there is
    none. *)
Theorem printed_id_addresses_the_record st req env z :
  0 <= z <= 2 ^ 53 ->
  method req = "GET" ->
  pathname req = ("/books/" ++ decimal z)%string ->
  bookMatch (pathname req) = Some (Some (decimal z)) /\
  Number_of_digits (decimal z) = Fin z /\
  match find_book (Fin z) (books st) with
  | Some b =>
      status_of (response R st req env) = Some 200 /\
      payload_of (response R st req env)
      = Some (PDataCookies b (parseCookies (cookie req)))
  | None => status_of (response R st req env) = Some 404
  end.
Proof.
  intros Hz Hm Hp.
  destruct (decimal_value z) as (Hv & Hd & Hne); [lia|].
  assert (Hbm : bookMatch (pathname req) = Some (Some (decimal z)))
    by (rewrite Hp; now apply bookMatch_of_digits).
  assert (Hn : Number_of_digits (decimal z) = Fin z).
  { unfold Number_of_digits. rewrite Hv. apply round_double_exact.
    rewrite Z.abs_eq; lia. }
  split; [exact Hbm|]. split; [exact Hn|].
  destruct (get_book_response R st req env _ Hm Hbm) as [_ Hget].
  rewrite Hn in Hget.
  destruct (find_book (Fin z) (books st)); [exact Hget|apply Hget].
Qed.

Lemma slice_is_a_window {A : Type} (l : list A) s e :
  exists pre post, l = pre ++ slice l s e ++ post.
Proof.
  unfold slice.
  set (k := Z.to_nat (relative_index (Z.of_nat (List.length l)) s)).
  set (n := Z.to_nat (relative_index (Z.of_nat (List.length l)) e
                      - relative_index (Z.of_nat (List.length l)) s)).
  exists (firstn k l), (skipn n (skipn k l)).
  now rewrite (firstn_skipn n (skipn k l)), (firstn_skipn k l).
Qed.

(** X27: whatever [limit] and [page] are (negative, not numbers, huge),
    GET /books answers 200 with a run of consecutive records of the
    filtered collection, in their order, and with [total] the size of the
    filtered collection. *)
Theorem listing_is_a_window st req env :
  method req = "GET" ->
  pathname req = "/books" ->
  let filtered := filter_by_author (searchParams_get req "author") (books st) in
  status_of (response R st req env) = Some 200 /\
  exists page limit data pre post,
    payload_of (response R st req env)
    = Some (PList page limit (Z.of_nat (List.length filtered)) data) /\
    filtered = pre ++ data ++ post.
Proof.
  intros Hm Hp filtered.
  split; [apply (list_books_is_200 R st req env Hm Hp)|].
  rewrite (list_books_payload R st req env Hm Hp). fold filtered.
  match goal with
  | |- context [slice filtered ?s ?e] =>
      destruct (slice_is_a_window filtered s e) as (pre & post & Hw);
      exists (parseInt (or_default (searchParams_get req "page") "1")),
             (parseInt (or_default (searchParams_get req "limit") "10")),
             (slice filtered s e), pre, post
  end.
  split; [reflexivity|exact Hw].
Qed.

End PathFacts.

(** ** The bearer token *)

Lemma lower_char_ascii b : code (lower_char b) < 128 -> code b < 128.
Proof.
  destruct b as [b0 b1 b2 b3 b4 b5 b6 b7].
  destruct b0, b1, b2, b3, b4, b5, b6, b7; vm_compute; congruence.
Qed.

Lemma strip_prefix_ci_exact p s :
  all_chars (fun c => code c <? 128) p = true ->
  strip_prefix_ci p s = Some "" <-> toLowerCase s = p.
Proof.
  revert s. induction p as [|a p IH]; intros s Hp.
  - destruct s; cbn; split; congruence.
  - cbn in Hp. apply andb_true_iff in Hp. destruct Hp as [Ha Hp].
    apply Z.ltb_lt in Ha.
    destruct s as [|b s]; cbn [strip_prefix_ci toLowerCase]; [split; discriminate|].
    destruct (Ascii.eqb_spec a (lower_char b)) as [E|Hne]; cbn [andb].
    + assert (Hb : code b < 128) by (apply lower_char_ascii; now rewrite <- E).
      apply Z.ltb_lt in Hb. rewrite Hb, (IH s Hp). subst a.
      split; [now intros ->|now intros [= ->]].
    + split; [discriminate|]. intros [= E _]. congruence.
Qed.

Lemma strip_prefix_ci_split p s r :
  strip_prefix_ci p s = Some r <->
  exists pre, s = (pre ++ r)%string /\ strip_prefix_ci p pre = Some "".
Proof.
  revert s. induction p as [|a p IH]; intros s.
  - cbn. split.
    + intros [= ->]. now exists "".
    + intros (pre & -> & [= ->]). reflexivity.
  - destruct s as [|b s]; cbn [strip_prefix_ci].
    + split; [discriminate|]. intros (pre & E & H).
      destruct pre; [discriminate H|discriminate E].
    + destruct (Ascii.eqb a (lower_char b) && (code b <? 128)) eqn:Eb.
      * rewrite IH. split.
        -- intros (pre & -> & H). exists (String b pre). cbn. now rewrite Eb.
        -- intros (pre & E & H). destruct pre as [|b' pre]; [discriminate H|].
           cbn in E, H. injection E as <- ->. rewrite Eb in H. now exists pre.
      * split; [discriminate|]. intros (pre & E & H).
        destruct pre as [|b' pre]; [discriminate H|].
        cbn in E, H. injection E as <- ->. rewrite Eb in H. discriminate.
Qed.

Lemma blanks_then_group_sound r t :
  blanks_then_group r = Some t ->
  exists w, r = (w ++ t)%string /\ all_chars is_space w = true /\
            t <> "" /\ all_chars (fun c => negb (is_line_terminator c)) t = true.
Proof.
  assert (Hhere : forall s,
            (if negb (String.eqb s "")
                && all_chars (fun c => negb (is_line_terminator c)) s
             then Some s else None) = Some t ->
            exists w, s = (w ++ t)%string /\ all_chars is_space w = true /\
                      t <> "" /\
                      all_chars (fun c => negb (is_line_terminator c)) t = true).
  { intros s H. destruct (String.eqb_spec s ""); cbn [negb andb] in H;
      [discriminate|].
    destruct (all_chars _ s) eqn:E; [|discriminate].
    injection H as <-. now exists "". }
  induction r as [|c r IH]; cbn [blanks_then_group]; [apply Hhere|].
  destruct (is_space c) eqn:Ec; [|apply Hhere].
  destruct (blanks_then_group r) as [t'|]; [|apply Hhere].
  intros [= ->]. destruct (IH eq_refl) as (w & -> & Hw & Hne & Hlt).
  exists (String c w). cbn. rewrite Ec. auto.
Qed.

Lemma blanks_then_group_complete w c t :
  all_chars is_space w = true ->
  is_space c = false ->
  all_chars (fun x => negb (is_line_terminator x)) (String c t) = true ->
  blanks_then_group (w ++ String c t) = Some (String c t).
Proof.
  intros Hw Hc Hlt. induction w as [|x w IH].
  - cbn [append blanks_then_group]. now rewrite Hc, Hlt.
  - cbn in Hw. apply andb_true_iff in Hw. destruct Hw as [Hx Hw].
    cbn [append blanks_then_group]. now rewrite Hx, (IH Hw).
Qed.

Lemma or_default_empty_inv x s :
  or_default x "" = s -> s <> "" -> x = Some s.
Proof.
  unfold or_default. destruct x as [y|]; [|congruence].
  destruct (String.eqb_spec y ""); congruence.
Qed.

(** X28: the token is accepted exactly when the Authorization header is
    the word Bearer, in any mix of upper and lower case, followed by one or
    more blanks and by the secret, with nothing after it. *)
Theorem valid_token_form req :
  valid_token req <->
  exists scheme blanks,
    authorization req = Some (scheme ++ blanks ++ DEMO_BEARER)%string /\
    toLowerCase scheme = "bearer" /\
    blanks <> "" /\
    all_chars is_space blanks = true.
Proof.
  unfold valid_token, match_bearer. split.
  - destruct (strip_prefix_ci "bearer" _) as [[|c r]|] eqn:Es; try discriminate.
    destruct (is_space c) eqn:Ec; [|discriminate]. intros Hg.
    destruct (blanks_then_group_sound _ _ Hg) as (w & -> & Hw & _ & _).
    apply strip_prefix_ci_split in Es. destruct Es as (pre & Eauth & Hpre).
    exists pre, (String c w). repeat split.
    + apply or_default_empty_inv; [exact Eauth|].
      destruct pre; [discriminate Hpre|discriminate].
    + now apply strip_prefix_ci_exact.
    + discriminate.
    + cbn. now rewrite Ec.
  - intros (scheme & blanks & Ea & Hs & Hne & Hb). rewrite Ea.
    apply strip_prefix_ci_exact in Hs; [|reflexivity].
    assert (Href : or_default (Some (scheme ++ blanks ++ DEMO_BEARER)%string) ""
                   = (scheme ++ blanks ++ DEMO_BEARER)%string).
    { unfold or_default.
      destruct (String.eqb_spec (scheme ++ blanks ++ DEMO_BEARER)%string "") as [E|_];
        [|reflexivity].
      destruct scheme; [discriminate Hs|discriminate E]. }
    rewrite Href.
    rewrite (proj2 (strip_prefix_ci_split "bearer" _ (blanks ++ DEMO_BEARER)%string)).
    2:{ now exists scheme. }
    destruct blanks as [|c w]; [contradiction|].
    cbn in Hb. apply andb_true_iff in Hb. destruct Hb as [Hc Hw].
    cbn [append]. rewrite Hc.
    now apply blanks_then_group_complete.
Qed.

(** ** The author filter *)

Lemma prefix_iff p s : prefix p s = true <-> exists r, s = (p ++ r)%string.
Proof.
  revert s. induction p as [|a p IH]; intros s.
  - split; [intros _; now exists s|intros _; now destruct s].
  - destruct s as [|b s]; cbn [prefix].
    + split; [discriminate|]. intros (r & E). discriminate E.
    + destruct (ascii_dec a b) as [->|Hne].
      * rewrite IH. split; intros (r & E); exists r; cbn in *; congruence.
      * split; [discriminate|]. intros (r & E). cbn in E. congruence.
Qed.

Lemma includes_iff s sub :
  includes s sub = true <-> exists pre post, s = (pre ++ sub ++ post)%string.
Proof.
  induction s as [|c s IH].
  - cbn [includes]. rewrite orb_false_r, prefix_iff. split.
    + intros (r & E). now exists "", r.
    + intros (pre & post & E). destruct pre; [now exists post|discriminate].
  - cbn [includes]. rewrite orb_true_iff, prefix_iff, IH. split.
    + intros [(r & E)|(pre & post & E)].
      * now exists "", r.
      * exists (String c pre), post. cbn. now rewrite E.
    + intros (pre & post & E). destruct pre as [|x pre].
      * left. now exists post.
      * right. exists pre, post. cbn in E. congruence.
Qed.

(** X29: the author filter keeps exactly the records whose author, in
    lower case, has the parameter, in lower case, as a run of consecutive
    characters; without the parameter, or with an empty one, it keeps all
    records. *)
Theorem author_filter_is_substring_match a all b :
  a <> "" ->
  (In b (filter_by_author (Some a) all) <->
   In b all /\
   exists pre post,
     toLowerCase (author b) = (pre ++ toLowerCase a ++ post)%string) /\
  filter_by_author None all = all /\
  filter_by_author (Some "") all = all.
Proof.
  intros Ha. repeat split; try reflexivity.
  - unfold filter_by_author in H. destruct (String.eqb_spec a ""); [contradiction|].
    now apply filter_In in H.
  - unfold filter_by_author in H. destruct (String.eqb_spec a ""); [contradiction|].
    apply filter_In in H. now apply includes_iff.
  - intros [Hin Hsub]. unfold filter_by_author.
    destruct (String.eqb_spec a ""); [contradiction|].
    apply filter_In. split; [exact Hin|now apply includes_iff].
Qed.

(** ** Repeating a DELETE *)

Section DeleteFacts.

Context (R : Runtime).




End DeleteFacts.

(** ** Concrete runs of the further properties *)

Lemma preflight_is_204_witness :
  status_of (response RT seed options_anywhere env0) = Some 204 /\
  snd (serve RT seed options_anywhere env0) = Normal tt.
Proof.
  destruct (preflight_is_204 RT seed options_anywhere env0 eq_refl)
    as (H204 & _ & _ & Hc).
  split; [exact H204|exact Hc].
Defined.

Lemma client_errors_leave_the_store_witness :
  status_of (response RT seed post_bad_token env0) = Some 401 /\
  store_after RT seed post_bad_token env0 = seed.
Proof.
  assert (H401 : status_of (response RT seed post_bad_token env0) = Some 401)
    by reflexivity.
  assert (Hc : 400 <= 401 < 500) by lia.
  split; [exact H401|].
  exact (client_errors_leave_the_store RT seed post_bad_token env0 401 H401 Hc).
Defined.

Lemma get_leaves_the_store_witness :
  store_after RT seed get_second env0 = seed.
Proof. exact (get_leaves_the_store RT seed get_second env0 eq_refl). Defined.

Lemma internal_error_is_generic_witness :
  status_of (response RT seed put_failing_stream env0) = Some 500 /\
  payload_of (response RT seed put_failing_stream env0)
  = Some (PError "Internal Server Error").
Proof.
  assert (H500 : status_of (response RT seed put_failing_stream env0) = Some 500)
    by reflexivity.
  split; [exact H500|].
  exact (proj1 (internal_error_is_generic RT seed put_failing_stream env0 H500)).
Defined.

Lemma put_replaces_the_record_witness :
  status_of (response RT seed put_full env0) = Some 200 /\
  payload_of (response RT seed put_full env0) = Some (PData (mkBook (Fin 2) "T" "A")).
Proof.
  destruct (put_replaces_the_record RT seed put_full env0 "2"
              (object_text [("title", "T"); ("author", "A")]) "T" "A" book2
              eq_refl eq_refl eq_refl eq_refl eq_refl eq_refl eq_refl eq_refl
              eq_refl) as (pre & post & _ & _ & H200 & Hpay).
  split; [exact H200|exact Hpay].
Defined.

Lemma get_returns_the_first_record_witness :
  payload_of (response RT seed get_second env0) = Some (PDataCookies book2 []).
Proof.
  destruct (get_returns_the_first_record RT seed get_second env0 "2" book2
              eq_refl eq_refl eq_refl) as (_ & Hpay & _).
  exact Hpay.
Defined.

Lemma unknown_id_is_not_found_witness :
  find_book (Number_of_digits "4") (books seed) = None /\
  status_of (response RT seed get_fourth env0) = Some 404.
Proof.
  assert (Hf : find_book (Number_of_digits "4") (books seed) = None)
    by reflexivity.
  split; [exact Hf|].
  destruct (unknown_id_is_not_found RT seed get_fourth env0 "4" eq_refl Hf)
    as (_ & H).
  exact (proj1 (H (or_introl eq_refl))).
Defined.

Lemma empty_body_is_400_witness :
  status_of (response RT seed post_empty_body env0) = Some 400 /\
  store_after RT seed post_empty_body env0 = seed.
Proof.
  destruct (empty_body_is_400 RT seed post_empty_body env0 eq_refl eq_refl)
    as (H & _).
  destruct (H (or_introl (conj eq_refl eq_refl))) as (H400 & _ & Hst).
  split; [exact H400|exact Hst].
Defined.


Lemma body_is_read_by_post_put_patch_only_witness :
  serve RT seed (with_body get_second StreamError) env0
  = serve RT seed get_second env0.
Proof.
  assert (Hin : In (method get_second) ["GET"; "DELETE"; "OPTIONS"])
    by (left; reflexivity).
  exact (body_is_read_by_post_put_patch_only RT seed get_second env0
           StreamError Hin).
Defined.

Lemma patch_keeps_the_title_when_the_author_throws_witness :
  status_of (response RT seed patch_bad_author env0) = Some 500 /\
  books (store_after RT seed patch_bad_author env0)
  = [mkBook (Fin 1) "X" "Marijn Haverbeke"; book2; book3].
Proof.
  destruct (patch_keeps_the_title_when_the_author_throws RT seed
              patch_bad_author env0 "1" bad_author_text
              [("title", JStr "X"); ("author", JObj [("toString", JNum 1)])]
              (JStr "X") (JObj [("toString", JNum 1)]) "X" TypeError book1
              eq_refl eq_refl eq_refl eq_refl eq_refl eq_refl eq_refl eq_refl
              eq_refl eq_refl) as (H500 & _).
  split; [exact H500|reflexivity].
Defined.



Lemma patch_with_both_fields_is_put_witness :
  store_after RT seed (with_method put_full "PATCH") env0
  = store_after RT seed put_full env0.
Proof.
  exact (proj1 (patch_with_both_fields_is_put RT seed put_full env0
                  eq_refl eq_refl)).
Defined.

Lemma later_cookie_wins_witness :
  assoc "a" (parseCookies (Some "a=1; a = 2 ")) = Some "2".
Proof.
  assert (H1 : "a=1" <> "") by discriminate.
  assert (H2 : " a " <> "") by discriminate.
  assert (H3 : trim " a " <> "__proto__") by (vm_compute; discriminate).
  exact (later_cookie_wins "a=1" " a " " 2 " H1 H2 H3 eq_refl eq_refl eq_refl
           eq_refl).
Defined.

Lemma printed_id_addresses_the_record_witness :
  payload_of (response RT seed get_second env0) = Some (PDataCookies book2 []).
Proof.
  assert (Hz : 0 <= 2 <= 2 ^ 53) by lia.
  destruct (printed_id_addresses_the_record RT seed get_second env0 2 Hz
              eq_refl eq_refl) as (_ & _ & H).
  exact (proj2 H).
Defined.

Lemma listing_is_a_window_witness :
  status_of (response RT seed get_negative_limit env0) = Some 200.
Proof.
  exact (proj1 (listing_is_a_window RT seed get_negative_limit env0
                  eq_refl eq_refl)).
Defined.

Lemma author_filter_is_substring_match_witness :
  In book2 (filter_by_author (Some "KYLE") (books seed)).
Proof.
  assert (Hne : "KYLE" <> "") by discriminate.
  destruct (author_filter_is_substring_match "KYLE" (books seed) book2 Hne)
    as (Hiff & _).
  apply Hiff. split.
  - right. left. reflexivity.
  - exists "", " simpson". reflexivity.
Defined.

